(** * Session store, request pipeline and expiration watcher of the task client

    A shallow embedding of [src/lib/api.ts] (class [ApiClient]) and of
    [src/hooks/useTokenExpiration.ts] (the periodic check), with the theorems
    that relate them to the written specification.  The embedding also covers
    the callers of the client: the hooks [useAuth] and [useTasks], the
    filters and the pager of the tasks view, the mount effect of the login
    form, and the route gate [middleware].

    Conventions of the embedding.
    - A JavaScript [number] is an integer, [Z]: [Date.now()] is a whole number
      of milliseconds and lifetimes are whole seconds.  [Math.floor (x / k)] is
      then [x / k] on [Z] and [Math.ceil (x / k)] is [- ((- x) / k)].
    - [string | null] is [option string]; an optional parameter or field is an
      [option].  The conditions of the source are JavaScript truthiness tests
      and are written out as such: the empty string and the number 0 are falsy.
    - Strings are sequences of bytes (the UTF-8 form of the JavaScript string).
    - [localStorage] and [sessionStorage] are finite maps from keys to strings;
      [typeof window !== "undefined"] is [window w = Some _].
    - A function with effects is a function from the world before the call to
      a completion (normal or abrupt) and the world after it.  One call runs
      without interleaving with other calls.  The [logger] calls of the source
      write to the console or to a monitoring service only and are left out. *)

From Stdlib Require Import ZArith Lia Ascii Sorted.
From stdpp Require Import base option strings gmap list pretty.

Local Open Scope Z_scope.

(** ** JavaScript values *)

Set Warnings "-register-all".

(** The values that reach the pipeline: parsed JSON bodies, thrown values and
    the [message] of an error.  [VError] is an instance of [Error] with its
    [message] and its further own properties. *)
Inductive Value : Type :=
| VUndefined
| VNull
| VBool (b : bool)
| VNum (n : Z)
| VStr (s : string)
| VArr (items : list Value)
| VObj (props : list (string * Value))
| VError (message : string) (props : list (string * Value)).

(** The outcome of evaluating a piece of code, or of awaiting a promise:
    a value, or a thrown value (a rejection). *)
Inductive Completion (A : Type) : Type :=
| Return (a : A)
| Throw (e : Value).
Arguments Return {A} a.
Arguments Throw {A} e.

(** [ToBoolean]. *)
Definition truthy (v : Value) : bool :=
  match v with
  | VUndefined | VNull => false
  | VBool b => b
  | VNum n => negb (n =? 0)
  | VStr s => negb (String.eqb s "")
  | VArr _ | VObj _ | VError _ _ => true
  end.

(** Truthiness of a [string | null] and of a [number | null | undefined]. *)
Definition truthy_string (s : option string) : bool :=
  match s with
  | Some s => negb (String.eqb s "")
  | None => false
  end.

Definition truthy_number (n : option Z) : bool :=
  match n with
  | Some n => negb (n =? 0)
  | None => false
  end.

(** [typeof v === "object"]. *)
Definition typeof_object (v : Value) : bool :=
  match v with
  | VNull | VArr _ | VObj _ | VError _ _ => true
  | _ => false
  end.

(** [typeof v === "string"]. *)
Definition typeof_string (v : Value) : bool :=
  match v with
  | VStr _ => true
  | _ => false
  end.

(** [v instanceof Error]. *)
Definition instanceof_Error (v : Value) : bool :=
  match v with
  | VError _ _ => true
  | _ => false
  end.

Fixpoint assoc (k : string) (props : list (string * Value)) : option Value :=
  match props with
  | [] => None
  | (k', v) :: rest => if String.eqb k k' then Some v else assoc k rest
  end.

(** [k in v] for an object [v]: own properties only (the keys asked for by
    the source are not keys of a prototype). *)
Definition in_op (k : string) (v : Value) : bool :=
  match v with
  | VObj props => bool_decide (is_Some (assoc k props))
  | VError _ props => String.eqb k "message" || bool_decide (is_Some (assoc k props))
  | _ => false
  end.

(** [v.k]: reading a property of [undefined] or [null] throws a [TypeError];
    a missing property reads as [undefined]. *)
Definition TypeError (what k : string) : Value :=
  VError ("Cannot read properties of " +:+ what +:+ " (reading '" +:+ k +:+ "')") [].

Definition get (v : Value) (k : string) : Completion Value :=
  match v with
  | VUndefined => Throw (TypeError "undefined" k)
  | VNull => Throw (TypeError "null" k)
  | VObj props => Return (default VUndefined (assoc k props))
  | VError m props =>
      Return (if String.eqb k "message" then VStr m
              else default VUndefined (assoc k props))
  | VBool _ | VNum _ | VStr _ | VArr _ => Return VUndefined
  end.

(** [s.includes(sub)]. *)
Fixpoint includes (s sub : string) : bool :=
  String.prefix sub s ||
  match s with
  | EmptyString => false
  | String _ rest => includes rest sub
  end.

(** [n.toString()] for an integer: every digit is printed.  JavaScript does
    so below 1e21 in absolute value and prints the exponent form from there
    on; the theorems that read a printed number back are stated within
    [safe_integer], where both agree. *)
Definition toString (n : Z) : string := pretty n.

(** ** The world of one browser tab *)

Record ApiClient : Type := mkApiClient {
  baseUrl : string;
  token : option string;
  tokenExpiresAt : option Z
}.

Record Location : Type := mkLocation {
  href : string;
  pathname : string
}.

Record Window : Type := mkWindow {
  localStorage : gmap string string;
  sessionStorage : gmap string string;
  location : Location
}.

(** The second argument of [fetch] as the pipeline builds it. *)
Record FetchCall : Type := mkFetchCall {
  call_url : string;
  call_method : option string;
  call_headers : gmap string string;
  call_body : option string;
  call_credentials : string
}.

(** A [toast.warning (title, {description, duration})] call. *)
Record Toast : Type := mkToast {
  toast_title : string;
  toast_description : string;
  toast_duration : Z
}.

Record World : Type := mkWorld {
  apiClient : ApiClient;
  window : option Window;          (* None: no [window], as on the server *)
  now : Z;                         (* Date.now() *)
  fetched : list FetchCall;        (* the calls of [fetch], oldest first *)
  toasts : list Toast;             (* the warnings raised, oldest first *)
  replaced : list string;          (* the [router.replace] calls *)
  warningShownRef : bool           (* warningShownRef.current *)
}.

Definition with_apiClient (c : ApiClient) (w : World) : World :=
  mkWorld c (window w) (now w) (fetched w) (toasts w) (replaced w) (warningShownRef w).

Definition with_window (win : option Window) (w : World) : World :=
  mkWorld (apiClient w) win (now w) (fetched w) (toasts w) (replaced w) (warningShownRef w).

Definition with_fetched (l : list FetchCall) (w : World) : World :=
  mkWorld (apiClient w) (window w) (now w) l (toasts w) (replaced w) (warningShownRef w).

Definition with_toasts (l : list Toast) (w : World) : World :=
  mkWorld (apiClient w) (window w) (now w) (fetched w) l (replaced w) (warningShownRef w).

Definition with_replaced (l : list string) (w : World) : World :=
  mkWorld (apiClient w) (window w) (now w) (fetched w) (toasts w) l (warningShownRef w).

Definition with_warningShown (b : bool) (w : World) : World :=
  mkWorld (apiClient w) (window w) (now w) (fetched w) (toasts w) (replaced w) b.

Definition with_localStorage (m : gmap string string) (win : Window) : Window :=
  mkWindow m (sessionStorage win) (location win).

Definition with_sessionStorage (m : gmap string string) (win : Window) : Window :=
  mkWindow (localStorage win) m (location win).

Definition with_href (h : string) (win : Window) : Window :=
  mkWindow (localStorage win) (sessionStorage win) (mkLocation h (pathname (location win))).

(** Storage and location operations of the source, on the tab's window. *)
Definition on_window (f : Window -> Window) (w : World) : World :=
  with_window (f <$> window w) w.

Definition localStorage_setItem (k v : string) : World -> World :=
  on_window (fun win => with_localStorage (<[k := v]> (localStorage win)) win).

Definition localStorage_removeItem (k : string) : World -> World :=
  on_window (fun win => with_localStorage (delete k (localStorage win)) win).

Definition sessionStorage_setItem (k v : string) : World -> World :=
  on_window (fun win => with_sessionStorage (<[k := v]> (sessionStorage win)) win).

Definition set_location_href (h : string) : World -> World :=
  on_window (with_href h).

Definition set_token (tok : option string) (w : World) : World :=
  with_apiClient
    (mkApiClient (baseUrl (apiClient w)) tok (tokenExpiresAt (apiClient w))) w.

Definition set_tokenExpiresAt (e : option Z) (w : World) : World :=
  with_apiClient (mkApiClient (baseUrl (apiClient w)) (token (apiClient w)) e) w.

(** ** Session store: [ApiClient.setToken], [getToken], [isTokenExpired] *)

(** [setToken(token, expiresInSeconds?)]. *)
Definition setToken (tok : option string) (expiresInSeconds : option Z) (w : World) : World :=
  let w1 := set_token tok w in
  match window w1 with
  | None => w1
  | Some _ =>
      if truthy_string tok then
        let w2 := localStorage_setItem "auth_token" (default "" tok) w1 in
        if truthy_number expiresInSeconds then
          let expiresAt := now w2 + default 0 expiresInSeconds * 1000 in
          let w3 := set_tokenExpiresAt (Some expiresAt) w2 in
          localStorage_setItem "auth_token_expires_at" (toString expiresAt) w3
        else w2
      else
        let w2 := localStorage_removeItem "auth_token" w1 in
        let w3 := localStorage_removeItem "auth_token_expires_at" w2 in
        set_tokenExpiresAt None w3
  end.

Definition getToken (w : World) : option string := token (apiClient w).

Definition getTokenExpiresAt (w : World) : option Z := tokenExpiresAt (apiClient w).

(** [isTokenExpired()]. *)
Definition isTokenExpired (w : World) : bool :=
  if negb (truthy_string (token (apiClient w))) then true
  else if negb (truthy_number (tokenExpiresAt (apiClient w))) then false
  else match tokenExpiresAt (apiClient w) with
       | Some expiresAt => expiresAt <=? now w
       | None => false
       end.

(** [isTokenExpiringSoon(thresholdSeconds = 300)]. *)
Definition isTokenExpiringSoon (thresholdSeconds : option Z) (w : World) : bool :=
  if negb (truthy_string (token (apiClient w)))
     || negb (truthy_number (tokenExpiresAt (apiClient w))) then false
  else match tokenExpiresAt (apiClient w) with
       | Some expiresAt =>
           let thresholdMs := default 300 thresholdSeconds * 1000 in
           expiresAt - thresholdMs <=? now w
       | None => false
       end.

(** ** Computations with effects *)

(** A computation reads and changes the world, and completes normally or
    abruptly ([throw], a rejected [await]). *)
Definition M (A : Type) : Type := World -> Completion A * World.

Definition ret {A : Type} (a : A) : M A := fun w => (Return a, w).

Definition throw {A : Type} (e : Value) : M A := fun w => (Throw e, w).

Definition bind {A B : Type} (m : M A) (k : A -> M B) : M B :=
  fun w =>
    match m w with
    | (Return a, w') => k a w'
    | (Throw e, w') => (Throw e, w')
    end.

(** [try { m } catch (e) { h e }]. *)
Definition try_catch {A : Type} (m : M A) (h : Value -> M A) : M A :=
  fun w =>
    match m w with
    | (Return a, w') => (Return a, w')
    | (Throw e, w') => h e w'
    end.

(** The completion of an expression or of an awaited promise that leaves
    the world as it is. *)
Definition lift {A : Type} (c : Completion A) : M A := fun w => (c, w).

Definition gets {A : Type} (f : World -> A) : M A := fun w => (Return (f w), w).

Definition modify (f : World -> World) : M unit := fun w => (Return tt, f w).

Declare Scope js_scope.
Delimit Scope js_scope with js.
Notation "x <- m ;; k" := (bind m (fun x => k))
  (at level 100, m at next level, right associativity) : js_scope.
Notation "m ;;; k" := (bind m (fun _ => k))
  (at level 100, right associativity) : js_scope.
Local Open Scope js_scope.

(** [if (c) { m }] *)
Definition when (c : bool) (m : M unit) : M unit := if c then m else ret tt.

(** ** Request pipeline: [ApiClient.request] *)

Record Response : Type := mkResponse {
  status : Z;
  statusText : string;
  content_type : option string;   (* response.headers.get("content-type") *)
  json : Completion Value;        (* how response.json() settles *)
  text : Completion string        (* how response.text() settles *)
}.

(** [response.ok]: the status is in the range 200-299. *)
Definition ok (r : Response) : bool := (200 <=? status r) && (status r <=? 299).

Record RequestInit : Type := mkRequestInit {
  method : option string;
  headers : option (gmap string string);
  body : option string
}.

(** [options = {}]. *)
Definition no_options : RequestInit := mkRequestInit None None None.

(** The network: how [fetch] settles for a given call. *)
Definition Fetch : Type := FetchCall -> Completion Response.

(** The object literal [{ message, status }] of type [ApiError]. *)
Definition ApiError (message : Value) (st : Z) : Value :=
  VObj [("message", message); ("status", VNum st)].

Definition typeof_window_defined (w : World) : bool := bool_decide (is_Some (window w)).

(** [window.location.pathname.includes("/login")]. *)
Definition on_login_page (w : World) : bool :=
  match window w with
  | Some win => includes (pathname (location win)) "/login"
  | None => false
  end.

(** The pre-flight condition [this.token && this.isTokenExpired()]. *)
Definition token_expired_before_request (w : World) : bool :=
  truthy_string (token (apiClient w)) && isTokenExpired w.

(** The headers of the call: the default content type, overridden by the
    caller's headers, and the bearer token when there is one. *)
Definition request_headers (options : RequestInit) (w : World) : gmap string string :=
  let headers0 := default ∅ (headers options) ∪ {[ "Content-Type" := "application/json" ]} in
  if truthy_string (token (apiClient w))
  then <["Authorization" := "Bearer " +:+ default "" (token (apiClient w))]> headers0
  else headers0.

(** [fetch(url, { ...options, headers, credentials: "include" })] as issued
    from the world [w]. *)
Definition fetch_call (endpoint : string) (options : RequestInit) (w : World) : FetchCall :=
  mkFetchCall (baseUrl (apiClient w) +:+ endpoint) (method options)
              (request_headers options w) (body options) "include".

(** [await fetch(...)]: the call is recorded and settles as the network says. *)
Definition await_fetch (fetch : Fetch) (call : FetchCall) : M Response :=
  fun w => (fetch call, with_fetched (fetched w ++ [call]) w).

(** [contentType?.includes("application/json") ||
     contentType?.includes("application/problem+json")] *)
Definition isJson (r : Response) : bool :=
  match content_type r with
  | Some ct => includes ct "application/json" || includes ct "application/problem+json"
  | None => false
  end.

(** The message of the error for a failed response, from its body. *)
Definition errorMessage_of (errorBody : Value) (r : Response) : Completion Value :=
  if typeof_string errorBody then Return errorBody
  else
    match get errorBody "detail" with
    | Throw e => Throw e
    | Return detail =>
        if truthy detail then Return detail
        else
          match get errorBody "message" with
          | Throw e => Throw e
          | Return message =>
              if truthy message then Return message
              else
                match get errorBody "title" with
                | Throw e => Throw e
                | Return title =>
                    if truthy title then Return title
                    else Return (VStr ("HTTP " +:+ toString (status r) +:+ ": " +:+ statusText r))
                end
          end
    end.

(** The branch [if (!response.ok)]: session handling on 401, then the
    normalized error is thrown. *)
Definition handle_failure (r : Response) : M Value :=
  when (status r =? 401)
    (modify (setToken None None) ;;;
     redirect <- gets (fun w => typeof_window_defined w && negb (on_login_page w)) ;;
     when redirect
       (modify (sessionStorage_setItem "session_expired" "true") ;;;
        modify (set_location_href "/login"))) ;;;
  errorBody <- (if isJson r then lift (json r)
                else s <- lift (text r) ;; ret (VStr s)) ;;
  errorMessage <- lift (errorMessage_of errorBody r) ;;
  throw (ApiError errorMessage (status r)).

(** The body of the [try] block. *)
Definition perform (fetch : Fetch) (call : FetchCall) : M Value :=
  response <- await_fetch fetch call ;;
  if status response =? 204 then ret (VObj [])
  else if negb (ok response) then handle_failure response
  else if isJson response then lift (json response)
  else ret (VObj []).

(** The message chosen in the [catch] clause for a thrown value that is not
    passed through. *)
Definition classify (error : Value) : string :=
  match error with
  | VError message _ =>
      if includes message "Failed to fetch" then
        "Unable to connect to the server. Please check your internet connection and try again."
      else if includes message "NetworkError" then
        "Network error. Please check your internet connection and try again."
      else if includes message "CORS" then
        "Service temporarily unavailable. Please try again later."
      else "An error occurred. Please try again."
  | _ => "An unexpected error occurred. Please try again."
  end.

(** [error && typeof error === "object" && "status" in error] *)
Definition carries_status (error : Value) : bool :=
  truthy error && typeof_object error && in_op "status" error.

(** The [catch (error)] clause. *)
Definition on_catch (error : Value) : M Value :=
  if carries_status error then throw error
  else throw (ApiError (VStr (classify error)) 0).

Definition session_expired_error : Value :=
  ApiError (VStr "Your session has expired. Please login again.") 401.

(** [request(endpoint, options = {})]. *)
Definition request (fetch : Fetch) (endpoint : string) (options : RequestInit) : M Value :=
  expired <- gets token_expired_before_request ;;
  if expired then
    modify (setToken None None) ;;;
    has_window <- gets typeof_window_defined ;;
    when has_window
      (modify (sessionStorage_setItem "session_expired" "true") ;;;
       modify (set_location_href "/login")) ;;;
    throw session_expired_error
  else
    call <- gets (fetch_call endpoint options) ;;
    try_catch (perform fetch call) on_catch.

(** [logout()]. *)
Definition logout (fetch : Fetch) : M unit :=
  try_catch
    (request fetch "/api/v1/auth/logout" (mkRequestInit (Some "POST") None None) ;;; ret tt)
    (fun _ => ret tt) ;;;
  modify (setToken None None).

(** ** Task list: [ApiClient.getTasks] *)

Inductive TaskStatus : Type := PENDING | IN_PROGRESS | COMPLETED.

Inductive SortOrder : Type := CREATED_ASC | CREATED_DESC | UPDATED_ASC | UPDATED_DESC.

Definition TaskStatus_value (s : TaskStatus) : string :=
  match s with
  | PENDING => "PENDING"
  | IN_PROGRESS => "IN_PROGRESS"
  | COMPLETED => "COMPLETED"
  end.

Definition SortOrder_value (s : SortOrder) : string :=
  match s with
  | CREATED_ASC => "CREATED_ASC"
  | CREATED_DESC => "CREATED_DESC"
  | UPDATED_ASC => "UPDATED_ASC"
  | UPDATED_DESC => "UPDATED_DESC"
  end.

(** [interface TaskFilters]: every field is optional ([None]: not in the
    object); [q] and [status] may also be there with the value [null]
    ([Some None]). *)
Module Filters.
Record t : Type := mk {
  page : option Z;
  size : option Z;
  q : option (option string);
  status : option (option TaskStatus);
  sort : option SortOrder
}.
End Filters.
Abbreviation TaskFilters := Filters.t.

(** The serializer of [URLSearchParams.toString()]
    (application/x-www-form-urlencoded). *)
Definition hex_digit (n : N) : ascii :=
  ascii_of_N (if (n <? 10)%N then 48 + n else 55 + n)%N.

Definition urlencoded_plain (n : N) : bool :=
  ((n =? 42) || (n =? 45) || (n =? 46) || (n =? 95)
   || ((48 <=? n) && (n <=? 57))
   || ((65 <=? n) && (n <=? 90))
   || ((97 <=? n) && (n <=? 122)))%N.

Definition urlencode_byte (c : ascii) : string :=
  let n := N_of_ascii c in
  if (n =? 32)%N then "+"
  else if urlencoded_plain n then String c ""
  else String "%" (String (hex_digit (n / 16)) (String (hex_digit (n mod 16)) "")).

Fixpoint urlencode (s : string) : string :=
  match s with
  | EmptyString => ""
  | String c rest => urlencode_byte c +:+ urlencode rest
  end.

Fixpoint URLSearchParams_toString (params : list (string * string)) : string :=
  match params with
  | [] => ""
  | [(k, v)] => urlencode k +:+ "=" +:+ urlencode v
  | (k, v) :: rest => urlencode k +:+ "=" +:+ urlencode v +:+ "&" +:+ URLSearchParams_toString rest
  end.

(** [params.append(k, v)] when [c] holds. *)
Definition append_if (c : bool) (k v : string) (params : list (string * string)) :
  list (string * string) :=
  if c then params ++ [(k, v)] else params.

(** The parameters collected by [getTasks(filters?)]. *)
Definition getTasks_params (filters : option TaskFilters) : list (string * string) :=
  let page := filters ≫= Filters.page in
  let size := filters ≫= Filters.size in
  let q := mjoin (filters ≫= Filters.q) in
  let status := mjoin (filters ≫= Filters.status) in
  let sort := filters ≫= Filters.sort in
  let params := [] in
  let params := append_if (truthy_number page) "page" (toString (default 0 page)) params in
  let params := append_if (truthy_number size) "size" (toString (default 0 size)) params in
  let params := append_if (truthy_string q) "q" (default "" q) params in
  let params := append_if (truthy_string (TaskStatus_value <$> status)) "status"
                          (default "" (TaskStatus_value <$> status)) params in
  let params := append_if (truthy_string (SortOrder_value <$> sort)) "sort"
                          (default "" (SortOrder_value <$> sort)) params in
  params.

Definition getTasks_endpoint (filters : option TaskFilters) : string :=
  let queryString := URLSearchParams_toString (getTasks_params filters) in
  if negb (String.eqb queryString "") then "/api/v1/tasks?" +:+ queryString
  else "/api/v1/tasks".

Definition getTasks (fetch : Fetch) (filters : option TaskFilters) : M Value :=
  request fetch (getTasks_endpoint filters) no_options.

(** ** Expiration watcher: [checkTokenExpiration] of [useTokenExpiration] *)

(** [Math.ceil(a / b)] for a positive [b]. *)
Definition ceil_div (a b : Z) : Z := - ((- a) / b).

(** [sessionStorage.setItem] as the watcher calls it, without a test for
    [window]: without one the reference itself throws. *)
Definition global_sessionStorage_setItem (k v : string) : M unit :=
  fun w =>
    match window w with
    | Some _ => (Return tt, sessionStorage_setItem k v w)
    | None => (Throw (VError "sessionStorage is not defined" []), w)
    end.

Definition router_replace (path : string) : M unit :=
  modify (fun w => with_replaced (replaced w ++ [path]) w).

Definition toast_warning (title description : string) (duration : Z) : M unit :=
  modify (fun w => with_toasts (toasts w ++ [mkToast title description duration]) w).

Definition expiring_soon_description (minutes : Z) : string :=
  "Your session will expire in " +:+ toString minutes +:+ " minute"
  +:+ (if 1 <? minutes then "s" else "") +:+ ". Please save your work.".

(** One run of [checkTokenExpiration], on activation or on a tick. *)
Definition checkTokenExpiration (warningThresholdSeconds : Z) : M unit :=
  tok <- gets getToken ;;
  expiresAt <- gets getTokenExpiresAt ;;
  if negb (truthy_string tok) || negb (truthy_number expiresAt) then
    modify (with_warningShown false)
  else
    n <- gets now ;;
    let timeUntilExpiry := default 0 expiresAt - n in
    let timeUntilExpirySeconds := timeUntilExpiry / 1000 in
    if timeUntilExpiry <=? 0 then
      modify (setToken None None) ;;;
      global_sessionStorage_setItem "session_expired" "true" ;;;
      router_replace "/login"
    else
      shown <- gets warningShownRef ;;
      when ((timeUntilExpirySeconds <=? warningThresholdSeconds) && negb shown)
        (let minutes := ceil_div timeUntilExpirySeconds 60 in
         toast_warning "Session Expiring Soon" (expiring_soon_description minutes) 10000 ;;;
         modify (with_warningShown true)) ;;;
      when (warningThresholdSeconds + 60 <? timeUntilExpirySeconds)
        (modify (with_warningShown false)).

(** The options of the hook: the threshold defaults to 300 seconds. *)
Definition warningThresholdSeconds_of (option_value : option Z) : Z := default 300 option_value.

(** ** Intermediate worlds of the pipeline *)

(** The world after the pre-flight check has found the token expired. *)
Definition after_expiry (w : World) : World :=
  let w1 := setToken None None w in
  if typeof_window_defined w1
  then set_location_href "/login" (sessionStorage_setItem "session_expired" "true" w1)
  else w1.

(** The world once [fetch] has been called. *)
Definition after_fetch (call : FetchCall) (w : World) : World :=
  with_fetched (fetched w ++ [call]) w.

(** The world after a response with status 401 has been handled. *)
Definition after_401 (w : World) : World :=
  let w1 := setToken None None w in
  if typeof_window_defined w1 && negb (on_login_page w1)
  then set_location_href "/login" (sessionStorage_setItem "session_expired" "true" w1)
  else w1.

(** The body of a failed response as the pipeline reads it:
    [isJson ? await response.json() : await response.text()]. *)
Definition errorBody_of (r : Response) : Completion Value :=
  if isJson r then json r
  else match text r with
       | Return s => Return (VStr s)
       | Throw e => Throw e
       end.

(** ** Notions of the specification *)

(** The store tells a present value from an absent one by its truth value:
    [null], [undefined], the empty string and the number 0 all count as
    absent.  The specification's "a token is present" and "an expiry is
    recorded" are read accordingly: a token is a non-empty string and a
    recorded expiry is a non-zero timestamp. *)
Definition token_present (w : World) : Prop :=
  exists t, getToken w = Some t /\ t <> "".

Definition expiry_recorded (w : World) (e : Z) : Prop :=
  getTokenExpiresAt w = Some e /\ e <> 0.

(** What durable storage holds for the session. *)
Definition durable_token (w : World) : option string :=
  window w ≫= fun win => localStorage win !! "auth_token".

Definition durable_expiry (w : World) : option string :=
  window w ≫= fun win => localStorage win !! "auth_token_expires_at".

(** The session is cleared: neither memory nor durable storage holds a token
    or an expiry. *)
Definition session_cleared (w : World) : Prop :=
  getToken w = None /\ getTokenExpiresAt w = None /\
  durable_token w = None /\ durable_expiry w = None.

(** The "session ended" flag read by the login view. *)
Definition session_ended_flag (w : World) : Prop :=
  exists win, window w = Some win /\ sessionStorage win !! "session_expired" = Some "true".

(** A navigation to the login view was started from the pipeline. *)
Definition redirected_to_login (w : World) : Prop :=
  exists win, window w = Some win /\ href (location win) = "/login".

(** The statement "token and expiry are always written together": after a
    call of [setToken] either the token and the expiry computed by this call
    are both stored, or both are cleared. *)
Definition written_together (tok : option string) (secs : option Z) (w : World) : Prop :=
  let w' := setToken tok secs w in
  (exists t s, tok = Some t /\ secs = Some s /\
               getToken w' = Some t /\ getTokenExpiresAt w' = Some (now w + s * 1000))
  \/ (getToken w' = None /\ getTokenExpiresAt w' = None).

(** The message of a failed response in the words of the specification: the
    first of the fields [detail], [message], [title] of the JSON body that
    holds a value (one that is not falsy), else ["HTTP <status>: <statusText>"]. *)
Definition field_of (k : string) (props : list (string * Value)) : option Value :=
  match assoc k props with
  | Some v => if truthy v then Some v else None
  | None => None
  end.

Definition spec_errorMessage (props : list (string * Value)) (r : Response) : Value :=
  match field_of "detail" props, field_of "message" props, field_of "title" props with
  | Some detail, _, _ => detail
  | None, Some message, _ => message
  | None, None, Some title => title
  | None, None, None => VStr ("HTTP " +:+ toString (status r) +:+ ": " +:+ statusText r)
  end.




(** ** Concrete worlds, responses and filters *)

(** A tab showing [path], with empty storage, at time [t]. *)
Definition tab (path : string) : Window := mkWindow ∅ ∅ (mkLocation path path).

Definition world0 (tok : option string) (e : option Z) (path : string) (t : Z) : World :=
  mkWorld (mkApiClient "http://localhost:8080" tok e) (Some (tab path)) t [] [] [] false.

(** A session opened an hour-long, then a token set without a lifetime. *)
Definition previous_session : World :=
  setToken (Some "old") (Some 3600) (world0 None None "/tasks" 1000).

(** A session with 60.5 seconds left. *)
Definition expiring_world : World := world0 (Some "valid-token") (Some 61500) "/tasks" 1000.

(** Responses and networks for concrete runs. *)
Definition unauthorized_response : Response :=
  mkResponse 401 "Unauthorized" (Some "application/json")
             (Return (VObj [("message", VStr "Unauthorized")])) (Return "").

Definition not_found_response : Response :=
  mkResponse 404 "Not Found" (Some "application/problem+json")
             (Return (VObj [("title", VStr "Not Found"); ("detail", VStr "No such task")]))
             (Return "").

Definition always (c : Completion Response) : Fetch := fun _ => c.

Definition valid_world : World := world0 (Some "valid-token") (Some 5000) "/tasks" 1000.

(** A response of type text/plain whose text is the JSON text of an object
    with the one field [detail]. *)
Definition dquote : string := String (ascii_of_N 34) "".

Definition detail_text : string :=
  "{" +:+ dquote +:+ "detail" +:+ dquote +:+ ":" +:+ dquote +:+ "boom" +:+ dquote +:+ "}".

Definition plain_detail_response : Response :=
  mkResponse 400 "Bad Request" (Some "text/plain")
             (Return (VObj [("detail", VStr "boom")])) (Return detail_text).



(** The responses and failures of the test suite of the client. *)
Definition invalid_credentials_response : Response :=
  mkResponse 401 "Unauthorized" (Some "application/json")
             (Return (VObj [("message", VStr "Invalid credentials")])) (Return "").

Definition server_error_response : Response :=
  mkResponse 500 "Internal Server Error" (Some "text/plain")
             (Throw (VError "Invalid JSON" [])) (Return "Internal Server Error").

Definition no_content_response : Response :=
  mkResponse 204 "No Content" None (Throw (VError "Unexpected end of JSON input" [])) (Return "").

(** Further responses for concrete runs. *)
Definition task_list_response : Response :=
  mkResponse 200 "OK" (Some "application/json")
             (Return (VObj [("items", VArr []); ("total", VNum 0)])) (Return "").

Definition null_body_response : Response :=
  mkResponse 500 "Internal Server Error" (Some "application/json") (Return VNull) (Return "null").

(** Options with headers of the caller's own. *)
Definition own_headers_options : RequestInit :=
  mkRequestInit (Some "POST")
                (Some {[ "Authorization" := "Basic abc"; "Content-Type" := "text/plain";
                         "X-Trace" := "1" ]})
                (Some "hello").

(** The same world at another time: the clock is the browser's. *)
Definition with_now (t : Z) (w : World) : World :=
  mkWorld (apiClient w) (window w) t (fetched w) (toasts w) (replaced w) (warningShownRef w).

(** ** A run of the expiration watcher *)

(** [useTokenExpiration] calls [checkTokenExpiration] once when the effect
    starts and then on every firing of the interval, until the effect is
    cleaned up.  The browser chooses the instants: a run is the list of the
    times at which the check is called.  A check that throws does not stop
    the interval. *)
Definition tick (threshold : Z) (t : Z) (w : World) : World :=
  snd (checkTokenExpiration threshold (with_now t w)).

Definition run_ticks (threshold : Z) (times : list Z) (w : World) : World :=
  foldl (fun w t => tick threshold t w) w times.

(** [useTokenExpiration(options)]: nothing runs unless [enabled], which
    defaults to true; the threshold defaults to 300 seconds. *)
Definition useTokenExpiration (enabled : option bool) (warningThresholdSeconds : option Z)
    (times : list Z) (w : World) : World :=
  if default true enabled
  then run_ticks (warningThresholdSeconds_of warningThresholdSeconds) times w
  else w.

(** The watcher has nothing left to announce from time [t0] on: the store
    holds no token or no expiry, or the warning for the expiry it holds has
    been shown. *)
Definition watcher_quiet (threshold : Z) (t0 : Z) (w : World) : Prop :=
  truthy_string (getToken w) = false \/
  truthy_number (getTokenExpiresAt w) = false \/
  (warningShownRef w = true /\
   exists e, token_present w /\ expiry_recorded w e /\ (e - t0) / 1000 <= threshold).

(** ** The login view: [LoginForm] *)

Definition sessionStorage_removeItem (k : string) : World -> World :=
  on_window (fun win => with_sessionStorage (delete k (sessionStorage win)) win).

(** The toast raised by the login view: a title and a description, with no
    duration of its own. *)
Record Notice : Type := mkNotice {
  notice_title : string;
  notice_description : string
}.

Definition session_expired_notice : Notice :=
  mkNotice "Session Expired" "Your session has expired. Please sign in again.".

(** The effect that [LoginForm] runs when it is mounted: the notice it
    raises, if any, and the world after it. *)
Definition LoginForm_on_mount (w : World) : option Notice * World :=
  match window w with
  | Some win =>
      if bool_decide (sessionStorage win !! "session_expired" = Some "true")
      then (Some session_expired_notice, sessionStorage_removeItem "session_expired" w)
      else (None, w)
  | None => (None, w)
  end.

(** A tab on the tasks view that holds a token expired at time 500. *)
Definition expired_world : World := world0 (Some "expired-token") (Some 500) "/tasks" 1000.

(** ** Construction of the client: [new ApiClient(baseUrl)] *)

(** A number as [parseInt] returns it: an integer, or [NaN]. *)
Inductive Number : Type :=
| Finite (z : Z)
| NaN.

(** The white space and line terminators that [parseInt] skips, as the
    bytes of their UTF-8 form: tab, line feed, vertical tab, form feed,
    carriage return, space; U+00A0; U+1680, U+2000 to U+200A, U+2028, U+2029,
    U+202F, U+205F, U+3000 and U+FEFF. *)
Definition is_space1 (n : N) : bool :=
  ((n =? 9) || (n =? 10) || (n =? 11) || (n =? 12) || (n =? 13) || (n =? 32))%N.

Definition is_space2 (n1 n2 : N) : bool := ((n1 =? 194) && (n2 =? 160))%N.

Definition is_space3 (n1 n2 n3 : N) : bool :=
  (((n1 =? 225) && (n2 =? 154) && (n3 =? 128))
   || ((n1 =? 226) && (n2 =? 128) && ((128 <=? n3) && (n3 <=? 138)))
   || ((n1 =? 226) && (n2 =? 128) && ((n3 =? 168) || (n3 =? 169) || (n3 =? 175)))
   || ((n1 =? 226) && (n2 =? 129) && (n3 =? 159))
   || ((n1 =? 227) && (n2 =? 128) && (n3 =? 128))
   || ((n1 =? 239) && (n2 =? 187) && (n3 =? 191)))%N.

Fixpoint trimStart (s : string) : string :=
  match s with
  | String c1 r1 =>
      if is_space1 (N_of_ascii c1) then trimStart r1
      else
        match r1 with
        | String c2 r2 =>
            if is_space2 (N_of_ascii c1) (N_of_ascii c2) then trimStart r2
            else
              match r2 with
              | String c3 r3 =>
                  if is_space3 (N_of_ascii c1) (N_of_ascii c2) (N_of_ascii c3)
                  then trimStart r3
                  else s
              | EmptyString => s
              end
        | EmptyString => s
        end
  | EmptyString => s
  end.

Definition digit_of (c : ascii) : option N :=
  let n := N_of_ascii c in
  if ((48 <=? n) && (n <=? 57))%N then Some (n - 48)%N else None.

(** The value of the longest prefix of decimal digits, if there is one. *)
Fixpoint parse_digits (acc : option N) (s : string) : option N :=
  match s with
  | String c rest =>
      match digit_of c with
      | Some d => parse_digits (Some (10 * default 0 acc + d)%N) rest
      | None => acc
      end
  | EmptyString => acc
  end.

(** [parseInt(s, 10)]. *)
Definition parseInt10 (s : string) : Number :=
  let trimmed := trimStart s in
  let '(sign, rest) :=
    match trimmed with
    | String c r =>
        if Ascii.eqb c "-" then (-1, r)
        else if Ascii.eqb c "+" then (1, r)
        else (1, trimmed)
    | EmptyString => (1, trimmed)
    end in
  match parse_digits None rest with
  | Some n => Finite (sign * Z.of_N n)
  | None => NaN
  end.

(** The fields of a client as the constructor sets them; the expiry read
    back from storage may be [NaN]. *)
Record Hydrated : Type := mkHydrated {
  hydrated_baseUrl : string;
  hydrated_token : option string;
  hydrated_tokenExpiresAt : option Number
}.

(** [constructor(baseUrl)]. *)
Definition new_ApiClient (base : string) (win : option Window) : Hydrated :=
  match win with
  | Some win =>
      let expiresAt := localStorage win !! "auth_token_expires_at" in
      mkHydrated base (localStorage win !! "auth_token")
                 (if truthy_string expiresAt then Some (parseInt10 (default "" expiresAt))
                  else None)
  | None => mkHydrated base None None
  end.

(** The client of the embedding for hydrated fields, when the expiry is a
    number that [tokenExpiresAt] can hold. *)
Definition client_of (h : Hydrated) : option ApiClient :=
  match hydrated_tokenExpiresAt h with
  | None => Some (mkApiClient (hydrated_baseUrl h) (hydrated_token h) None)
  | Some (Finite z) => Some (mkApiClient (hydrated_baseUrl h) (hydrated_token h) (Some z))
  | Some NaN => None
  end.

(** The client that a reload of the page constructs from the storage of
    the tab. *)
Definition reloaded (w : World) : option ApiClient :=
  client_of (new_ApiClient (baseUrl (apiClient w)) (window w)).

(** Memory and durable storage agree: a reload of the page would construct
    the client that is held now. *)
Definition storage_in_step (w : World) : Prop := reloaded w = Some (apiClient w).

(** Two worlds with the same session store: the same client, and the same
    [localStorage] where there is a window. *)
Definition same_store (w' w : World) : Prop :=
  apiClient w' = apiClient w /\
  (localStorage <$> window w') = (localStorage <$> window w).


(** ** Signing in: [ApiClient.login] *)

(** [JSON.stringify] is the serializer of the platform.  The client passes
    it plain data and sends what it returns as the body; the calls below take
    it as the parameter [JSON_stringify] ([None]: it returned [undefined]). *)
Definition Serializer : Type := Value -> option string.

(** The second argument of [setToken] as [login] passes it: the field
    [expiresInSeconds] of the response.  [setToken] tests it for truthiness
    and multiplies it when it is truthy; a truthy value that is not a number
    is outside the embedding ([None]). *)
Definition lifetime_of (v : Value) : option (option Z) :=
  match v with
  | VNum n => Some (Some n)
  | _ => if truthy v then None else Some None
  end.

(** What [login] does with the response once [request] has resolved: the
    reads of [token] and [expiresInSeconds], and [setToken] when the token
    is truthy.  [Date.now()] reads [arrival] by then.  The result is [None]
    when the response holds a truthy [token] that is not a string, or with it
    a truthy [expiresInSeconds] that is not a number: values that the
    declared type [TokenResponse] excludes and that the store of the
    embedding cannot hold. *)
Definition login_response (response : Value) (arrival : Z) (w : World)
    : option (Completion Value * World) :=
  match get response "token", get response "expiresInSeconds" with
  | Return tok, Return expiresInSeconds =>
      if truthy tok then
        match tok, lifetime_of expiresInSeconds with
        | VStr t, Some secs =>
            Some (Return response, setToken (Some t) secs (with_now arrival w))
        | _, _ => None
        end
      else Some (Return response, w)
  | Throw e, _ | _, Throw e => Some (Throw e, w)
  end.

(** The options that [login] passes to [request]. *)
Definition login_options (JSON_stringify : Serializer) (credentials : Value) : RequestInit :=
  mkRequestInit (Some "POST") None (JSON_stringify credentials).

(** [login(credentials)]. *)
Definition login (JSON_stringify : Serializer) (fetch : Fetch) (credentials : Value)
    (arrival : Z) (w : World) : option (Completion Value * World) :=
  match (lift (get credentials "username") ;;;
         request fetch "/api/v1/auth/login" (login_options JSON_stringify credentials)) w with
  | (Throw e, w1) => Some (Throw e, w1)
  | (Return response, w1) => login_response response arrival w1
  end.

(** A response as the declared type [TokenResponse] has it, as far as
    [login] reads it: [token] is a string when it is truthy, and then
    [expiresInSeconds] is a number when it is truthy. *)
Definition TokenResponse_typed (response : Value) : Prop :=
  match get response "token", get response "expiresInSeconds" with
  | Return tok, Return expiresInSeconds =>
      truthy tok = true ->
      typeof_string tok = true /\ is_Some (lifetime_of expiresInSeconds)
  | _, _ => True
  end.

(** ** The hook [useAuth] *)

(** The result that the hooks report for an operation: [{ success: true }]
    or [{ success: false, error }]. *)
Module HookResult.
Record t : Type := mk {
  success : bool;
  error : option Value
}.
End HookResult.

(** The initial value of [isAuthenticated]. *)
Definition useAuth_initial (w : World) : bool :=
  if typeof_window_defined w then truthy_string (getToken w) else false.

(** [login(credentials)] of the hook, from the state [isAuthenticated]: the
    completion, the state afterwards and the world afterwards. *)
Definition useAuth_login (JSON_stringify : Serializer) (fetch : Fetch) (credentials : Value)
    (arrival : Z) (isAuthenticated : bool) (w : World)
    : option (Completion HookResult.t * bool * World) :=
  match login JSON_stringify fetch credentials arrival w with
  | None => None
  | Some (Return _, w1) =>
      Some (Return (HookResult.mk true None), true, snd (router_replace "/tasks" w1))
  | Some (Throw apiError, w1) =>
      match get apiError "message" with
      | Return message =>
          Some (Return (HookResult.mk false
                          (Some (if truthy message then message else VStr "Login failed"))),
                isAuthenticated, w1)
      | Throw e => Some (Throw e, isAuthenticated, w1)
      end
  end.

(** [logout()] of the hook. *)
Definition useAuth_logout (fetch : Fetch) (isAuthenticated : bool) (w : World)
    : Completion unit * bool * World :=
  match try_catch (logout fetch) (fun _ => ret tt) w with
  | (Return _, w1) => (Return tt, false, snd (router_replace "/login" w1))
  | (Throw e, w1) => (Throw e, isAuthenticated, w1)
  end.

(** A response to a successful sign-in, and credentials. *)
Definition token_response : Response :=
  mkResponse 200 "OK" (Some "application/json")
             (Return (VObj [("token", VStr "fresh"); ("expiresInSeconds", VNum 3600)]))
             (Return "").

Definition credentials0 : Value :=
  VObj [("username", VStr "alice"); ("password", VStr "secret")].

(** A serializer for concrete runs: it stands for [JSON.stringify] on
    [credentials0] only. *)
Definition quoted (s : string) : string := dquote +:+ s +:+ dquote.

Definition stringify0 : Serializer :=
  fun _ => Some ("{" +:+ quoted "username" +:+ ":" +:+ quoted "alice" +:+ ","
                 +:+ quoted "password" +:+ ":" +:+ quoted "secret" +:+ "}").

(** A tab on the login view that still holds the expired token of an
    earlier session. *)
Definition stale_login_world : World :=
  world0 (Some "expired-token") (Some 500) "/login" 1000.


(** ** The tasks view: the filters of [TasksPage] over [useTasks] *)




(** The initial filters of [useTasks(initialFilters?)]. *)
Definition useTasks_filters (initialFilters : option TaskFilters) : TaskFilters :=
  default (Filters.mk (Some 1) (Some 20) None None (Some UPDATED_DESC)) initialFilters.

(** The state of [TasksPage]: what the controls show, and the filters held
    by [useTasks]. *)
Module TasksPage.
Record t : Type := mk {
  searchQuery : string;
  selectedStatus : option TaskStatus;
  sortOrder : SortOrder;
  filters : TaskFilters
}.
End TasksPage.











(** ** Single tasks: [getTask], [createTask], [updateTask], [deleteTask] *)

Definition getTask (fetch : Fetch) (id : string) : M Value :=
  request fetch ("/api/v1/tasks/" +:+ id) no_options.

Definition createTask (JSON_stringify : Serializer) (fetch : Fetch) (task : Value) : M Value :=
  request fetch "/api/v1/tasks" (mkRequestInit (Some "POST") None (JSON_stringify task)).

Definition updateTask (JSON_stringify : Serializer) (fetch : Fetch) (id : string)
    (task : Value) : M Value :=
  request fetch ("/api/v1/tasks/" +:+ id) (mkRequestInit (Some "PUT") None (JSON_stringify task)).

Definition deleteTask (fetch : Fetch) (id : string) : M Value :=
  request fetch ("/api/v1/tasks/" +:+ id) (mkRequestInit (Some "DELETE") None None).

(** ** The hook [useTasks] *)

(** [a || b]. *)
Definition or_else (a b : Value) : Value := if truthy a then a else b.

(** An optional number as a value: [undefined] when it is not there. *)
Definition number_value (n : option Z) : Value :=
  match n with
  | Some n => VNum n
  | None => VUndefined
  end.

Module Pagination.
Record t : Type := mk {
  total : Value;
  page : Value;
  size : Value
}.
End Pagination.

(** The state held by [useTasks]. *)
Module TasksState.
Record t : Type := mk {
  tasks : Value;
  pagination : Pagination.t;
  isLoading : bool;
  error : option Value;
  filters : TaskFilters
}.
End TasksState.

Definition useTasks_initial (initialFilters : option TaskFilters) : TasksState.t :=
  TasksState.mk (VArr []) (Pagination.mk (VNum 0) (VNum 1) (VNum 20)) true None
                (useTasks_filters initialFilters).

(** The body of the [try] block of [fetchTasks] once the list call has
    resolved: [setTasks] and [setPagination]. *)
Definition fetchTasks_try (response : Value) (st : TasksState.t) : Completion TasksState.t :=
  match get response "items", get response "total", get response "page",
        get response "size" with
  | Return items, Return total, Return page, Return size =>
      Return (TasksState.mk items
                (Pagination.mk
                   (or_else total (VNum 0))
                   (or_else page
                      (or_else (number_value (Filters.page (TasksState.filters st))) (VNum 1)))
                   (or_else size
                      (or_else (number_value (Filters.size (TasksState.filters st))) (VNum 20))))
                (TasksState.isLoading st) (TasksState.error st) (TasksState.filters st))
  | Throw e, _, _, _ | _, Throw e, _, _ | _, _, Throw e, _ | _, _, _, Throw e => Throw e
  end.

(** The [catch] clause of [fetchTasks]: [setError(err.message || fallback)]. *)
Definition fetchTasks_catch (err : Value) (st : TasksState.t) : Completion TasksState.t :=
  match get err "message" with
  | Return message =>
      Return (TasksState.mk (TasksState.tasks st) (TasksState.pagination st)
                (TasksState.isLoading st)
                (Some (or_else message (VStr "Failed to fetch tasks")))
                (TasksState.filters st))
  | Throw e => Throw e
  end.

Definition set_isLoading (b : bool) (st : TasksState.t) : TasksState.t :=
  TasksState.mk (TasksState.tasks st) (TasksState.pagination st) b (TasksState.error st)
                (TasksState.filters st).

Definition set_error (e : option Value) (st : TasksState.t) : TasksState.t :=
  TasksState.mk (TasksState.tasks st) (TasksState.pagination st) (TasksState.isLoading st) e
                (TasksState.filters st).

(** [fetchTasks()]: the completion, the state of the hook and the world
    afterwards. *)
Definition fetchTasks (fetch : Fetch) (st : TasksState.t) (w : World)
    : Completion unit * TasksState.t * World :=
  let st1 := set_error None (set_isLoading true st) in
  let '(c, w1) := getTasks fetch (Some (TasksState.filters st)) w in
  let settled :=
    match c with
    | Return response =>
        match fetchTasks_try response st1 with
        | Return st2 => Return st2
        | Throw err => fetchTasks_catch err st1
        end
    | Throw err => fetchTasks_catch err st1
    end in
  match settled with
  | Return st2 => (Return tt, set_isLoading false st2, w1)
  | Throw e => (Throw e, set_isLoading false st1, w1)
  end.

(** [createTask], [updateTask] and [deleteTask] of the hook have one shape:
    the call of the client, then [fetchTasks], then [{ success: true }]; a
    thrown value gives [{ success: false, error: err.message || fallback }].
    The list is fetched at the time [later]. *)
Definition useTasks_mutation (mutation : M Value) (fallback : string) (fetch : Fetch)
    (later : Z) (st : TasksState.t) (w : World)
    : Completion HookResult.t * TasksState.t * World :=
  let failed (err : Value) : Completion HookResult.t :=
    match get err "message" with
    | Return message =>
        Return (HookResult.mk false (Some (or_else message (VStr fallback))))
    | Throw e => Throw e
    end in
  match mutation w with
  | (Return _, w1) =>
      match fetchTasks fetch st (with_now later w1) with
      | (Return _, st2, w2) => (Return (HookResult.mk true None), st2, w2)
      | (Throw err, st2, w2) => (failed err, st2, w2)
      end
  | (Throw err, w1) => (failed err, st, w1)
  end.

Definition useTasks_createTask (JSON_stringify : Serializer) (fetch : Fetch) (task : Value) :=
  useTasks_mutation (createTask JSON_stringify fetch task) "Failed to create task" fetch.

Definition useTasks_updateTask (JSON_stringify : Serializer) (fetch : Fetch) (id : string)
    (task : Value) :=
  useTasks_mutation (updateTask JSON_stringify fetch id task) "Failed to update task" fetch.

Definition useTasks_deleteTask (fetch : Fetch) (id : string) :=
  useTasks_mutation (deleteTask fetch id) "Failed to delete task" fetch.


(** The three operations of the hook that change a task. *)
Inductive Mutation : Type :=
| Create (task : Value)
| Update (id : string) (task : Value)
| Delete (id : string).

Definition mutation_call (JSON_stringify : Serializer) (fetch : Fetch) (m : Mutation) : M Value :=
  match m with
  | Create task => createTask JSON_stringify fetch task
  | Update id task => updateTask JSON_stringify fetch id task
  | Delete id => deleteTask fetch id
  end.

Definition useTasks_mutate (JSON_stringify : Serializer) (fetch : Fetch) (m : Mutation) :=
  match m with
  | Create task => useTasks_createTask JSON_stringify fetch task
  | Update id task => useTasks_updateTask JSON_stringify fetch id task
  | Delete id => useTasks_deleteTask fetch id
  end.

(** The [fetch] call that an operation makes from the world [w]. *)
Definition mutation_fetch_call (JSON_stringify : Serializer) (m : Mutation) (w : World)
    : FetchCall :=
  match m with
  | Create task =>
      fetch_call "/api/v1/tasks" (mkRequestInit (Some "POST") None (JSON_stringify task)) w
  | Update id task =>
      fetch_call ("/api/v1/tasks/" +:+ id)
                 (mkRequestInit (Some "PUT") None (JSON_stringify task)) w
  | Delete id =>
      fetch_call ("/api/v1/tasks/" +:+ id) (mkRequestInit (Some "DELETE") None None) w
  end.

(** A hook state for concrete runs. *)
Definition tasks_state0 : TasksState.t := useTasks_initial None.


(** ** Route protection: [middleware] *)

Inductive MiddlewareResult : Type :=
| Redirect (path : string)     (* NextResponse.redirect(new URL(path, request.url)) *)
| Next.                        (* NextResponse.next() *)

(** [middleware(request)], from the value of the cookie [auth_token]
    ([None]: the request has no such cookie) and the path of the request. *)
Definition middleware (token : option string) (pathname : string) : MiddlewareResult :=
  let isLoginPage := String.eqb pathname "/login" in
  let isTasksPage := String.prefix "/tasks" pathname in
  if isTasksPage && negb (truthy_string token) then Redirect "/login"
  else if isLoginPage && truthy_string token then Redirect "/tasks"
  else Next.

(** ** Sequences of [setToken] calls *)

Definition setToken_calls (calls : list (option string * option Z)) (w : World) : World :=
  foldl (fun w call => setToken call.1 call.2 w) w calls.

(** The client is one that the constructor built in this process, with or
    without [window], and [setToken] calls have been made since. *)
Definition constructed (w : World) : Prop :=
  exists w0 calls, reloaded w0 = Some (apiClient w0) /\ w = setToken_calls calls w0.

(** A process without [window]: the server. *)
Definition server_world (c : ApiClient) (t : Z) : World := mkWorld c None t [] [] [] false.


(** A network that answers a [DELETE] with 204 and every other call with the
    empty task list. *)
Definition deleting_network : Fetch :=
  fun call =>
    if bool_decide (call_method call = Some "DELETE") then Return no_content_response
    else Return task_list_response.


(** ** Paging: [TaskPagination] *)

(** What the component shows: the range of items, the number of pages, and
    for each button the page that a click asks for ([None]: the button is
    disabled). *)
Module PaginationView.
Record t : Type := mk {
  startItem : Z;
  endItem : Z;
  totalPages : Z;
  previous : option Z;
  next : option Z
}.
End PaginationView.

(** [TaskPagination({ currentPage, pageSize, totalItems, onPageChange })]:
    [Some None] when the component renders nothing.  With a page size of 0
    the quotient is not a number of pages ([Infinity] or [NaN]); that case is
    outside the embedding ([None]). *)
Definition TaskPagination (currentPage pageSize totalItems : Z)
    : option (option PaginationView.t) :=
  if pageSize =? 0 then None
  else
    let totalPages := ceil_div totalItems pageSize in
    if totalPages <=? 1 then Some None
    else
      let startItem := (currentPage - 1) * pageSize + 1 in
      let endItem := Z.min (currentPage * pageSize) totalItems in
      Some (Some (PaginationView.mk startItem endItem totalPages
                    (if currentPage =? 1 then None else Some (currentPage - 1))
                    (if currentPage =? totalPages then None else Some (currentPage + 1)))).


(** ** Notions of the specification, continued *)

(** The login view is the route [/login] (the route gate tests
    [pathname === "/login"]). *)
Definition login_view (w : World) : Prop :=
  exists win, window w = Some win /\ pathname (location win) = "/login".

(** The statement "the flag is set and a redirect to the login view is
    triggered if and only if the current view is not already the login
    view", for the world [w] of the call and the world [w'] after it. *)
Definition announced_unless_login_view (w w' : World) : Prop :=
  (session_ended_flag w' /\ redirected_to_login w') <-> ~ login_view w.

(** The server at time [t]: no window, and the client as the constructor
    leaves it there. *)
Definition server_world0 (t : Z) : World :=
  mkWorld (mkApiClient "http://localhost:8080" None None) None t [] [] [] false.

(** A tab on a view that is not the login view and whose path contains
    ["/login"]. *)
Definition login_help_world : World :=
  world0 (Some "valid-token") (Some 5000) "/tasks/login-help" 1000.

(** "The remaining whole minutes rounded up": the remaining time, in
    minutes, rounded up. *)
Definition minutes_rounded_up (remaining_ms : Z) : Z := ceil_div remaining_ms 60000.

(** A session with half a second left. *)
Definition half_second_world : World := world0 (Some "valid-token") (Some 1500) "/tasks" 1000.

(** The statement "the previously stored expiry is left unchanged in memory
    and in durable storage" for a call of [setToken]. *)
Definition keeps_old_expiry (tok : option string) (secs : option Z) (w : World) : Prop :=
  getTokenExpiresAt (setToken tok secs w) = getTokenExpiresAt w /\
  durable_expiry (setToken tok secs w) = durable_expiry w.





(** * Theorems *)

(** ** Session store *)

Lemma truthy_string_true (s : option string) :
  truthy_string s = true <-> exists t, s = Some t /\ t <> "".
Proof.
  destruct s as [t|]; simpl.
  - rewrite negb_true_iff, String.eqb_neq. split; [eauto | intros (? & [= <-] & ?); done].
  - split; [done | intros (? & ? & ?); done].
Qed.

Lemma truthy_string_some (t : string) : t <> "" -> truthy_string (Some t) = true.
Proof. intros. apply truthy_string_true. eauto. Qed.

Lemma truthy_number_true (n : option Z) :
  truthy_number n = true <-> exists z, n = Some z /\ z <> 0.
Proof.
  destruct n as [z|]; simpl.
  - rewrite negb_true_iff, Z.eqb_neq. split; [eauto | intros (? & [= <-] & ?); done].
  - split; [done | intros (? & ? & ?); done].
Qed.

Lemma truthy_number_some (z : Z) : z <> 0 -> truthy_number (Some z) = true.
Proof. intros. apply truthy_number_true. eauto. Qed.

Lemma token_present_truthy (w : World) :
  token_present w <-> truthy_string (token (apiClient w)) = true.
Proof. symmetry. apply truthy_string_true. Qed.

Lemma isTokenExpired_passed (w : World) (e : Z) :
  token_present w -> expiry_recorded w e -> e <= now w -> isTokenExpired w = true.
Proof.
  intros Htok [He Hnz] Hle. unfold isTokenExpired.
  apply token_present_truthy in Htok. rewrite Htok. unfold getTokenExpiresAt in He.
  rewrite He, (truthy_number_some e Hnz). simpl. apply Z.leb_le. exact Hle.
Qed.

(** C5. For every store state and current time, [isTokenExpired()] is true
    exactly when no token is present, or an expiry is recorded and the
    current time is at or past it; a token with no recorded expiry is
    reported as not expired. *)
Theorem isTokenExpired_spec (w : World) :
  (isTokenExpired w = true <->
     ~ token_present w \/ exists e, expiry_recorded w e /\ e <= now w)
  /\ (token_present w -> (forall e, ~ expiry_recorded w e) -> isTokenExpired w = false).
Proof.
  unfold isTokenExpired, token_present, expiry_recorded, getToken, getTokenExpiresAt.
  destruct (truthy_string (token (apiClient w))) eqn:Htok; simpl.
  - apply truthy_string_true in Htok as Hpresent.
    destruct (truthy_number (tokenExpiresAt (apiClient w))) eqn:Hexp; simpl.
    + apply truthy_number_true in Hexp as (e & He & Hnz). rewrite He.
      split.
      * rewrite Z.leb_le. split.
        -- intros Hle. right. exists e. auto.
        -- intros [Habsent | (e' & [[= <-] _] & Hle)]; [contradiction | exact Hle].
      * intros _ Hnone. exfalso. apply (Hnone e). auto.
    + split; [| reflexivity].
      split; [discriminate |].
      intros [Habsent | (e & [He Hnz] & _)]; [contradiction |].
      assert (truthy_number (tokenExpiresAt (apiClient w)) = true) as Htrue
        by (apply truthy_number_true; eauto).
      congruence.
  - assert (~ exists t, token (apiClient w) = Some t /\ t <> "") as Habsent.
    { intros Hp. apply truthy_string_true in Hp. congruence. }
    split; [| intros Hp; contradiction].
    split; auto.
Qed.

(** What [setToken] does in a tab, case by case. *)
Lemma setToken_falsy (tok : option string) (secs : option Z) (w : World) (win : Window) :
  window w = Some win ->
  truthy_string tok = false ->
  setToken tok secs w =
    set_tokenExpiresAt None
      (localStorage_removeItem "auth_token_expires_at"
         (localStorage_removeItem "auth_token" (set_token tok w))).
Proof. intros Hwin Htok. unfold setToken. simpl. rewrite Hwin, Htok. reflexivity. Qed.

Lemma setToken_with_lifetime (t : string) (s : Z) (w : World) (win : Window) :
  window w = Some win ->
  t <> "" -> s <> 0 ->
  setToken (Some t) (Some s) w =
    localStorage_setItem "auth_token_expires_at" (toString (now w + s * 1000))
      (set_tokenExpiresAt (Some (now w + s * 1000))
         (localStorage_setItem "auth_token" t (set_token (Some t) w))).
Proof.
  intros Hwin Ht Hs. unfold setToken. simpl window. rewrite Hwin.
  rewrite (truthy_string_some t Ht), (truthy_number_some s Hs). reflexivity.
Qed.

Lemma setToken_without_lifetime (t : string) (secs : option Z) (w : World) (win : Window) :
  window w = Some win ->
  t <> "" -> secs = None \/ secs = Some 0 ->
  setToken (Some t) secs w = localStorage_setItem "auth_token" t (set_token (Some t) w).
Proof.
  intros Hwin Ht Hsecs. unfold setToken. simpl window. rewrite Hwin.
  rewrite (truthy_string_some t Ht).
  destruct Hsecs as [-> | ->]; reflexivity.
Qed.

Lemma setToken_no_window (tok : option string) (secs : option Z) (w : World) :
  window w = None -> setToken tok secs w = set_token tok w.
Proof. intros Hwin. unfold setToken. simpl. rewrite Hwin. reflexivity. Qed.

(** Case analysis on the branches of [setToken]: no window; a token with a
    lifetime; a token without one; no token. *)
Ltac setToken_cases tok secs w :=
  unfold setToken; simpl;
  destruct (window w) eqn:?; simpl;
  [destruct (truthy_string tok); [destruct (truthy_number secs) |]; simpl |].

Lemma getToken_setToken (tok : option string) (secs : option Z) (w : World) :
  getToken (setToken tok secs w) = tok.
Proof. setToken_cases tok secs w; reflexivity. Qed.

(** [setToken] touches the client and [localStorage] only. *)
Lemma setToken_frame (tok : option string) (secs : option Z) (w : World) :
  now (setToken tok secs w) = now w /\
  fetched (setToken tok secs w) = fetched w /\
  toasts (setToken tok secs w) = toasts w /\
  replaced (setToken tok secs w) = replaced w /\
  warningShownRef (setToken tok secs w) = warningShownRef w.
Proof. setToken_cases tok secs w; repeat split. Qed.

Lemma now_setToken (tok : option string) (secs : option Z) (w : World) :
  now (setToken tok secs w) = now w.
Proof. apply setToken_frame. Qed.

Lemma falsy_string_cases (tok : option string) :
  tok = None \/ tok = Some "" -> truthy_string tok = false.
Proof. intros [-> | ->]; reflexivity. Qed.

(** C3, as stated, fails: a token set without a lifetime replaces the token
    and leaves the expiry of the previous session in place. *)
Lemma setToken_not_written_together :
  getToken previous_session = Some "old" /\
  getTokenExpiresAt previous_session = Some 3601000 /\
  getToken (setToken (Some "new") None previous_session) = Some "new" /\
  getTokenExpiresAt (setToken (Some "new") None previous_session) = Some 3601000 /\
  durable_expiry (setToken (Some "new") None previous_session) = Some "3601000" /\
  ~ written_together (Some "new") None previous_session.
Proof.
  repeat split; try (vm_compute; reflexivity).
  intros [(t & s & _ & Hsecs & _) | [Htok _]]; [discriminate Hsecs |].
  vm_compute in Htok. discriminate Htok.
Qed.

(** C3, amended.  [setToken] stores the token it is given in memory.  In a
    tab, a null or empty token clears the expiry in memory and removes the
    token and the expiry from durable storage; a token that is not empty,
    with a non-zero lifetime, writes the token and the expiry
    [now + lifetime * 1000] together; a token that is not empty, without a
    lifetime (omitted or 0), is written alone and the expiry recorded before
    stays as it was, in memory and in durable storage.  Without a window the
    call sets the token in memory and does nothing else: the expiry in memory
    stays as it was, whatever the token and the lifetime, and nothing durable
    is written. *)
Theorem setToken_writes (tok : option string) (secs : option Z) (w : World) :
  getToken (setToken tok secs w) = tok /\
  (forall win, window w = Some win ->
     (tok = None \/ tok = Some "" ->
        getTokenExpiresAt (setToken tok secs w) = None /\
        durable_token (setToken tok secs w) = None /\
        durable_expiry (setToken tok secs w) = None) /\
     (forall t, tok = Some t -> t <> "" ->
        durable_token (setToken tok secs w) = Some t /\
        (forall s, secs = Some s -> s <> 0 ->
           getTokenExpiresAt (setToken tok secs w) = Some (now w + s * 1000) /\
           durable_expiry (setToken tok secs w) = Some (toString (now w + s * 1000))) /\
        (secs = None \/ secs = Some 0 ->
           getTokenExpiresAt (setToken tok secs w) = getTokenExpiresAt w /\
           durable_expiry (setToken tok secs w) = durable_expiry w))) /\
  (window w = None ->
     getTokenExpiresAt (setToken tok secs w) = getTokenExpiresAt w /\
     window (setToken tok secs w) = None /\
     durable_token (setToken tok secs w) = None /\
     durable_expiry (setToken tok secs w) = None).
Proof.
  split; [apply getToken_setToken |]. split.
  - intros win Hwin. split.
    + intros Htok. rewrite (setToken_falsy tok secs w win Hwin (falsy_string_cases tok Htok)).
      unfold durable_token, durable_expiry. simpl. rewrite Hwin. simpl.
      repeat split.
      * rewrite lookup_delete_ne by done. apply lookup_delete_eq.
      * apply lookup_delete_eq.
    + intros t -> Ht. split; [| split].
      * unfold setToken. simpl window. rewrite Hwin, (truthy_string_some t Ht).
        unfold durable_token.
        destruct (truthy_number secs); simpl; rewrite Hwin; simpl.
        -- rewrite lookup_insert_ne by done. apply lookup_insert_eq.
        -- apply lookup_insert_eq.
      * intros s -> Hs. rewrite (setToken_with_lifetime t s w win Hwin Ht Hs).
        unfold durable_expiry. simpl. rewrite Hwin. simpl.
        split; [reflexivity | apply lookup_insert_eq].
      * intros Hsecs. rewrite (setToken_without_lifetime t secs w win Hwin Ht Hsecs).
        unfold durable_expiry. simpl. rewrite Hwin. simpl.
        split; [reflexivity | by rewrite lookup_insert_ne].
  - intros Hwin. rewrite (setToken_no_window tok secs w Hwin).
    unfold durable_token, durable_expiry. simpl. rewrite Hwin. repeat split.
Qed.

Lemma setToken_writes_witness :
  getToken (setToken (Some "abc") (Some 3600) (world0 None None "/tasks" 1000)) = Some "abc" /\
  getTokenExpiresAt (setToken (Some "abc") (Some 3600) (world0 None None "/tasks" 1000))
    = Some 3601000 /\
  durable_expiry (setToken (Some "abc") (Some 3600) (world0 None None "/tasks" 1000))
    = Some "3601000" /\
  getTokenExpiresAt (setToken (Some "abc") (Some 3600) (server_world0 1000)) = None.
Proof.
  destruct (setToken_writes (Some "abc") (Some 3600) (world0 None None "/tasks" 1000))
    as (Htoken & Htab & _).
  destruct (Htab (tab "/tasks") eq_refl) as (_ & Hwritten).
  destruct (Hwritten "abc" eq_refl ltac:(discriminate)) as (_ & Hlifetime & _).
  destruct (Hlifetime 3600 eq_refl ltac:(discriminate)) as (Hmemory & Hdurable).
  destruct (setToken_writes (Some "abc") (Some 3600) (server_world0 1000))
    as (_ & _ & Hserver).
  split; [exact Htoken |]. split; [exact Hmemory |]. split; [exact Hdurable |].
  exact (proj1 (Hserver eq_refl)).
Defined.

(** C10, as stated, fails: the empty string is a token that is not null,
    and [setToken("")] on a store with a recorded expiry clears the expiry in
    memory and in durable storage. *)
Lemma setToken_empty_token_drops_expiry :
  Some "" <> @None string /\
  getTokenExpiresAt previous_session = Some 3601000 /\
  durable_expiry previous_session = Some "3601000" /\
  getToken (setToken (Some "") None previous_session) = Some "" /\
  getTokenExpiresAt (setToken (Some "") None previous_session) = None /\
  durable_expiry (setToken (Some "") None previous_session) = None /\
  ~ keeps_old_expiry (Some "") None previous_session.
Proof.
  split; [discriminate |].
  repeat split; try (vm_compute; reflexivity).
  intros [Hmemory _]. vm_compute in Hmemory. discriminate Hmemory.
Qed.

(** C10, amended.  For every store state with a recorded expiry, [setToken]
    with a token that is not empty and with the lifetime omitted or equal to
    0 leaves the stored expiry unchanged in memory and in durable storage:
    the new token inherits the old expiry, and is at once reported as expired
    when that expiry is not 0 and has passed. *)
Theorem setToken_keeps_old_expiry (t : string) (secs : option Z) (e : Z) (w : World) :
  t <> "" ->
  secs = None \/ secs = Some 0 ->
  getTokenExpiresAt w = Some e ->
  getToken (setToken (Some t) secs w) = Some t /\
  getTokenExpiresAt (setToken (Some t) secs w) = Some e /\
  durable_expiry (setToken (Some t) secs w) = durable_expiry w /\
  (e <> 0 -> e <= now w -> isTokenExpired (setToken (Some t) secs w) = true).
Proof.
  intros Ht Hsecs He.
  assert (getTokenExpiresAt (setToken (Some t) secs w) = Some e
          /\ durable_expiry (setToken (Some t) secs w) = durable_expiry w) as [Hmem Hdur].
  { destruct (window w) as [win|] eqn:Hwin.
    - rewrite (setToken_without_lifetime t secs w win Hwin Ht Hsecs).
      unfold durable_expiry. simpl. rewrite Hwin. simpl.
      split; [exact He | by rewrite lookup_insert_ne].
    - rewrite (setToken_no_window _ _ _ Hwin).
      unfold durable_expiry. simpl. rewrite Hwin. split; [exact He | reflexivity]. }
  repeat split; [apply getToken_setToken | exact Hmem | exact Hdur |].
  intros Hnz Hle. apply (isTokenExpired_passed (setToken (Some t) secs w) e).
  - exists t. split; [apply getToken_setToken | exact Ht].
  - split; [exact Hmem | exact Hnz].
  - rewrite now_setToken. exact Hle.
Qed.

Lemma setToken_keeps_old_expiry_witness :
  "new" <> "" /\
  (@None Z = None \/ @None Z = Some 0) /\
  getTokenExpiresAt (world0 (Some "old") (Some 5000) "/tasks" 9000) = Some 5000 /\
  getTokenExpiresAt (setToken (Some "new") None (world0 (Some "old") (Some 5000) "/tasks" 9000))
    = Some 5000 /\
  isTokenExpired (setToken (Some "new") None (world0 (Some "old") (Some 5000) "/tasks" 9000)) = true.
Proof.
  pose proof (setToken_keeps_old_expiry "new" None 5000
                (world0 (Some "old") (Some 5000) "/tasks" 9000)
                ltac:(discriminate) (or_introl eq_refl) eq_refl) as (_ & Hmem & _ & Hexpired).
  split; [discriminate |].
  split; [left; reflexivity |].
  split; [reflexivity |].
  split; [exact Hmem | apply Hexpired; simpl; lia].
Defined.

(** ** Request pipeline *)

Lemma request_expired (fetch : Fetch) (endpoint : string) (options : RequestInit) (w : World) :
  token_expired_before_request w = true ->
  request fetch endpoint options w = (Throw session_expired_error, after_expiry w).
Proof.
  intros Hexp. unfold request, bind, gets, after_expiry. rewrite Hexp. simpl.
  destruct (typeof_window_defined (setToken None None w)); reflexivity.
Qed.

Lemma request_not_expired (fetch : Fetch) (endpoint : string) (options : RequestInit) (w : World) :
  token_expired_before_request w = false ->
  request fetch endpoint options w =
    try_catch (perform fetch (fetch_call endpoint options w)) on_catch w.
Proof. intros Hexp. unfold request, bind, gets. rewrite Hexp. reflexivity. Qed.

Lemma perform_rejected (fetch : Fetch) (call : FetchCall) (e : Value) (w : World) :
  fetch call = Throw e ->
  perform fetch call w = (Throw e, after_fetch call w).
Proof. intros Hf. unfold perform, bind, await_fetch. rewrite Hf. reflexivity. Qed.

Lemma perform_failure (fetch : Fetch) (call : FetchCall) (r : Response) (w : World) :
  fetch call = Return r ->
  ok r = false ->
  perform fetch call w = handle_failure r (after_fetch call w).
Proof.
  intros Hf Hok. unfold perform, bind, await_fetch. rewrite Hf.
  destruct (status r =? 204) eqn:H204.
  - apply Z.eqb_eq in H204. unfold ok in Hok. rewrite H204 in Hok. discriminate Hok.
  - rewrite Hok. reflexivity.
Qed.

Lemma sessionStorage_setToken (tok : option string) (secs : option Z) (w : World) (win : Window) :
  window w = Some win ->
  exists win', window (setToken tok secs w) = Some win'
               /\ sessionStorage win' = sessionStorage win /\ location win' = location win.
Proof.
  intros Hwin. unfold setToken. simpl. rewrite Hwin.
  destruct (truthy_string tok); [destruct (truthy_number secs) |]; simpl; rewrite Hwin; simpl.
  all: eexists; split; [reflexivity | split; reflexivity].
Qed.

Lemma window_setToken (tok : option string) (secs : option Z) (w : World) :
  is_Some (window (setToken tok secs w)) <-> is_Some (window w).
Proof.
  destruct (window w) as [win |] eqn:Hwin.
  - destruct (sessionStorage_setToken tok secs w win Hwin) as (win' & -> & _). split; eauto.
  - rewrite (setToken_no_window tok secs w Hwin). simpl. rewrite Hwin. reflexivity.
Qed.

Lemma fetched_setToken (tok : option string) (secs : option Z) (w : World) :
  fetched (setToken tok secs w) = fetched w.
Proof. apply setToken_frame. Qed.

Lemma session_cleared_setToken_null (w : World) (win : Window) :
  window w = Some win -> session_cleared (setToken None None w).
Proof.
  intros Hwin. rewrite (setToken_falsy None None w win Hwin eq_refl).
  unfold session_cleared, durable_token, durable_expiry. simpl. rewrite Hwin. simpl.
  repeat split.
  - rewrite lookup_delete_ne by done. apply lookup_delete_eq.
  - apply lookup_delete_eq.
Qed.

(** Setting the flag and the location leaves the session as it is. *)
Lemma session_cleared_flagged (w : World) :
  session_cleared w ->
  session_cleared (set_location_href "/login" (sessionStorage_setItem "session_expired" "true" w)).
Proof.
  unfold session_cleared, durable_token, durable_expiry. simpl.
  destruct (window w); simpl; auto.
Qed.

Lemma flagged_and_redirected (w : World) (win : Window) :
  window w = Some win ->
  session_ended_flag (set_location_href "/login" (sessionStorage_setItem "session_expired" "true" w))
  /\ redirected_to_login (set_location_href "/login" (sessionStorage_setItem "session_expired" "true" w)).
Proof.
  intros Hwin. unfold session_ended_flag, redirected_to_login. simpl. rewrite Hwin. simpl.
  split; eexists; (split; [reflexivity |]); simpl; [apply lookup_insert_eq | reflexivity].
Qed.

(** C1. A call of the pipeline made while a token is stored and
    [isTokenExpired()] is true performs no network call, clears the session,
    sets the "session ended" flag and fails with the error
    [{message: "Your session has expired. Please login again.", status: 401}]. *)
Theorem request_with_expired_token
    (fetch : Fetch) (endpoint : string) (options : RequestInit) (w : World) (win : Window) :
  window w = Some win ->
  token_present w ->
  isTokenExpired w = true ->
  fst (request fetch endpoint options w)
    = Throw (ApiError (VStr "Your session has expired. Please login again.") 401) /\
  fetched (snd (request fetch endpoint options w)) = fetched w /\
  session_cleared (snd (request fetch endpoint options w)) /\
  session_ended_flag (snd (request fetch endpoint options w)).
Proof.
  intros Hwin Htok Hexp.
  assert (token_expired_before_request w = true) as Hpre.
  { unfold token_expired_before_request.
    apply token_present_truthy in Htok. rewrite Htok, Hexp. reflexivity. }
  rewrite (request_expired fetch endpoint options w Hpre). simpl.
  unfold after_expiry.
  assert (is_Some (window (setToken None None w))) as [win' Hwin'].
  { apply window_setToken. rewrite Hwin. eauto. }
  unfold typeof_window_defined. rewrite Hwin'.
  rewrite bool_decide_eq_true_2 by eauto.
  split; [reflexivity |]. split; [| split].
  - simpl. apply fetched_setToken.
  - apply session_cleared_flagged, (session_cleared_setToken_null w win Hwin).
  - apply (flagged_and_redirected _ win' Hwin').
Qed.

Lemma request_with_expired_token_witness :
  window (world0 (Some "expired-token") (Some 500) "/tasks" 1000) = Some (tab "/tasks") /\
  token_present (world0 (Some "expired-token") (Some 500) "/tasks" 1000) /\
  isTokenExpired (world0 (Some "expired-token") (Some 500) "/tasks" 1000) = true /\
  fetched (snd (request (fun _ => Throw VUndefined) "/api/v1/tasks" no_options
                        (world0 (Some "expired-token") (Some 500) "/tasks" 1000))) = [].
Proof.
  assert (token_present (world0 (Some "expired-token") (Some 500) "/tasks" 1000)) as Htok.
  { exists "expired-token". split; [reflexivity | discriminate]. }
  split; [reflexivity |]. split; [exact Htok |]. split; [reflexivity |].
  exact (proj1 (proj2 (request_with_expired_token (fun _ => Throw VUndefined) "/api/v1/tasks"
                         no_options (world0 (Some "expired-token") (Some 500) "/tasks" 1000)
                         (tab "/tasks") eq_refl Htok eq_refl))).
Defined.

(** The [catch] clause throws and leaves the world as it is; it passes on a
    normalized error unchanged. *)
Lemma on_catch_world (e : Value) (w : World) : snd (on_catch e w) = w.
Proof. unfold on_catch. destruct (carries_status e); reflexivity. Qed.

Lemma on_catch_ApiError (m : Value) (st : Z) (w : World) :
  on_catch (ApiError m st) w = (Throw (ApiError m st), w).
Proof. reflexivity. Qed.

Lemma on_catch_result (e : Value) (w : World) :
  fst (on_catch e w)
  = Throw (if carries_status e then e else ApiError (VStr (classify e)) 0).
Proof. unfold on_catch. destruct (carries_status e); reflexivity. Qed.

Lemma snd_try_catch_on_catch {m : M Value} (w : World) :
  snd (try_catch m on_catch w) = snd (m w).
Proof.
  unfold try_catch. destruct (m w) as [[v | e] w']; simpl; [reflexivity | apply on_catch_world].
Qed.

(** Runs the failure branch for [r] from [w] through every way the status
    test, the reading of the body and the choice of the message can go. *)
Ltac failure_cases r w :=
  unfold handle_failure, after_401, errorBody_of, bind, when, modify, gets, lift, ret, throw;
  destruct (status r =? 401); simpl;
  [destruct (typeof_window_defined (setToken None None w)
             && negb (on_login_page (setToken None None w))); simpl |];
  (destruct (isJson r); [destruct (json r) | destruct (text r)]; simpl; try reflexivity);
  match goal with
  | |- context [errorMessage_of ?b ?r0] => destruct (errorMessage_of b r0)
  end;
  reflexivity.

(** The failure branch: what it does to the world, and what it throws. *)
Lemma handle_failure_world (r : Response) (w : World) :
  snd (handle_failure r w) = if status r =? 401 then after_401 w else w.
Proof. failure_cases r w. Qed.

Lemma handle_failure_result (r : Response) (w : World) :
  fst (handle_failure r w) =
    match errorBody_of r with
    | Throw e => Throw e
    | Return errorBody =>
        match errorMessage_of errorBody r with
        | Throw e => Throw e
        | Return errorMessage => Throw (ApiError errorMessage (status r))
        end
    end.
Proof. failure_cases r w. Qed.

Lemma on_login_page_setToken (tok : option string) (secs : option Z) (w : World) :
  on_login_page (setToken tok secs w) = on_login_page w.
Proof.
  unfold on_login_page. destruct (window w) as [win |] eqn:Hwin.
  - destruct (sessionStorage_setToken tok secs w win Hwin) as (win' & -> & _ & ->). reflexivity.
  - rewrite (setToken_no_window tok secs w Hwin). simpl. rewrite Hwin. reflexivity.
Qed.

(** The world after a call that received a response with status 401. *)
Lemma request_401_world (fetch : Fetch) (endpoint : string) (options : RequestInit) (w : World)
    (r : Response) :
  token_expired_before_request w = false ->
  fetch (fetch_call endpoint options w) = Return r ->
  status r = 401 ->
  snd (request fetch endpoint options w)
    = after_401 (after_fetch (fetch_call endpoint options w) w).
Proof.
  intros Hpre Hfetch H401.
  assert (ok r = false) as Hok by (unfold ok; rewrite H401; reflexivity).
  rewrite (request_not_expired fetch endpoint options w Hpre), snd_try_catch_on_catch.
  rewrite (perform_failure fetch _ r w Hfetch Hok), handle_failure_world, H401. reflexivity.
Qed.

(** C2, as stated, fails: on the view [/tasks/login-help], which is not the
    login view, a response with status 401 clears the session, and neither
    is the "session ended" flag set nor a redirect started, because the path
    contains ["/login"]. *)
Lemma unauthorized_on_login_help_not_announced :
  ~ login_view login_help_world /\
  getToken (snd (request (always (Return unauthorized_response)) "/api/v1/tasks" no_options
                         login_help_world)) = None /\
  ~ session_ended_flag
      (snd (request (always (Return unauthorized_response)) "/api/v1/tasks" no_options
                    login_help_world)) /\
  ~ redirected_to_login
      (snd (request (always (Return unauthorized_response)) "/api/v1/tasks" no_options
                    login_help_world)) /\
  ~ announced_unless_login_view login_help_world
      (snd (request (always (Return unauthorized_response)) "/api/v1/tasks" no_options
                    login_help_world)).
Proof.
  assert (~ login_view login_help_world) as Hview.
  { intros (win & [= <-] & Hpath). discriminate Hpath. }
  assert (~ session_ended_flag
            (snd (request (always (Return unauthorized_response)) "/api/v1/tasks" no_options
                          login_help_world))) as Hflag.
  { intros (win & Hwin & Hset). vm_compute in Hwin. injection Hwin as <-.
    vm_compute in Hset. discriminate Hset. }
  split; [exact Hview |]. split; [vm_compute; reflexivity |]. split; [exact Hflag |]. split.
  - intros (win & Hwin & Hhref). vm_compute in Hwin. injection Hwin as <-.
    discriminate Hhref.
  - intros Hiff. apply Hflag, Hiff, Hview.
Qed.

(** C2, amended.  A call of the pipeline that receives a response with
    status 401 clears the token, so that [getToken()] then returns null, with
    or without a window.  In a tab the session is cleared in durable storage
    too, and the "session ended" flag is set and a redirect to the login view
    is started exactly when the path of the current view does not contain
    ["/login"]; when it does, as on the login view itself, [sessionStorage]
    and the location are left as they were.  Without a window nothing durable
    is written. *)
Theorem request_unauthorized
    (fetch : Fetch) (endpoint : string) (options : RequestInit) (w : World) (r : Response) :
  token_expired_before_request w = false ->
  fetch (fetch_call endpoint options w) = Return r ->
  status r = 401 ->
  getToken (snd (request fetch endpoint options w)) = None /\
  (forall win, window w = Some win ->
     session_cleared (snd (request fetch endpoint options w)) /\
     (on_login_page w = false ->
        session_ended_flag (snd (request fetch endpoint options w)) /\
        redirected_to_login (snd (request fetch endpoint options w))) /\
     (on_login_page w = true ->
        exists win', window (snd (request fetch endpoint options w)) = Some win' /\
                     sessionStorage win' = sessionStorage win /\
                     location win' = location win) /\
     (login_view w -> on_login_page w = true)) /\
  (window w = None -> window (snd (request fetch endpoint options w)) = None).
Proof.
  intros Hpre Hfetch H401.
  rewrite (request_401_world fetch endpoint options w r Hpre Hfetch H401).
  set (w1 := after_fetch (fetch_call endpoint options w) w).
  assert (on_login_page w1 = on_login_page w) as Hlogin1 by reflexivity.
  split; [| split].
  - unfold after_401. destruct (_ && negb _); simpl; apply getToken_setToken.
  - intros win Hwin.
    assert (window w1 = Some win) as Hwin1 by exact Hwin.
    pose proof (session_cleared_setToken_null w1 win Hwin1) as Hcleared.
    destruct (sessionStorage_setToken None None w1 win Hwin1) as (win2 & Hwin2 & Hss & Hloc).
    unfold after_401, typeof_window_defined.
    rewrite on_login_page_setToken, Hlogin1, Hwin2, bool_decide_eq_true_2 by eauto. simpl.
    assert (login_view w -> on_login_page w = true) as Hview.
    { intros (win0 & Hwin0 & Hpath). unfold on_login_page. rewrite Hwin0, Hpath. reflexivity. }
    destruct (on_login_page w) eqn:Hlogin; simpl.
    + split; [exact Hcleared |]. split; [discriminate |].
      split; [| exact Hview]. intros _. exists win2. auto.
    + split; [apply (session_cleared_flagged _ Hcleared) |].
      split; [| split; [discriminate | exact Hview]].
      intros _. apply (flagged_and_redirected _ win2 Hwin2).
  - intros Hwin.
    assert (window (setToken None None w1) = None) as Hnone
      by (rewrite (setToken_no_window None None w1 Hwin); exact Hwin).
    unfold after_401, typeof_window_defined. rewrite Hnone.
    rewrite bool_decide_eq_false_2 by (intros [? [=]]). exact Hnone.
Qed.

Lemma request_unauthorized_witness :
  token_expired_before_request valid_world = false /\
  always (Return unauthorized_response) (fetch_call "/api/v1/tasks" no_options valid_world)
    = Return unauthorized_response /\
  status unauthorized_response = 401 /\
  on_login_page valid_world = false /\
  getToken (snd (request (always (Return unauthorized_response)) "/api/v1/tasks" no_options
                         valid_world)) = None /\
  session_ended_flag
    (snd (request (always (Return unauthorized_response)) "/api/v1/tasks" no_options
                  valid_world)) /\
  redirected_to_login
    (snd (request (always (Return unauthorized_response)) "/api/v1/tasks" no_options
                  valid_world)).
Proof.
  destruct (request_unauthorized (always (Return unauthorized_response)) "/api/v1/tasks"
              no_options valid_world unauthorized_response eq_refl eq_refl eq_refl)
    as (Htoken & Htab & _).
  destruct (Htab (tab "/tasks") eq_refl) as (_ & Hoff & _).
  split; [reflexivity |]. split; [reflexivity |]. split; [reflexivity |].
  split; [reflexivity |]. split; [exact Htoken |]. exact (Hoff eq_refl).
Defined.

(** The world after the [try] block: the call is recorded, and a response
    with status 401 ends the session. *)
Lemma perform_world (fetch : Fetch) (call : FetchCall) (w : World) :
  snd (perform fetch call w) =
    match fetch call with
    | Return r =>
        if negb (status r =? 204) && negb (ok r) && (status r =? 401)
        then after_401 (after_fetch call w)
        else after_fetch call w
    | Throw _ => after_fetch call w
    end.
Proof.
  unfold perform, bind, await_fetch. fold (after_fetch call w).
  destruct (fetch call) as [r | e]; [| reflexivity].
  destruct (status r =? 204); [reflexivity |].
  destruct (ok r); simpl.
  - destruct (isJson r); [unfold lift; destruct (json r) |]; reflexivity.
  - apply handle_failure_world.
Qed.

(** The pipeline never removes the window. *)
Lemma window_after_401 (w : World) : is_Some (window w) -> is_Some (window (after_401 w)).
Proof.
  intros Hwin. apply (window_setToken None None) in Hwin. unfold after_401.
  destruct (typeof_window_defined (setToken None None w)
            && negb (on_login_page (setToken None None w))); [| exact Hwin].
  simpl. destruct Hwin as [win ->]. simpl. eauto.
Qed.

Lemma window_request (fetch : Fetch) (endpoint : string) (options : RequestInit) (w : World) :
  is_Some (window w) -> is_Some (window (snd (request fetch endpoint options w))).
Proof.
  intros Hwin. destruct (token_expired_before_request w) eqn:Hpre.
  - rewrite (request_expired fetch endpoint options w Hpre). simpl.
    apply (window_setToken None None) in Hwin. unfold after_expiry.
    destruct (typeof_window_defined (setToken None None w)); [| exact Hwin].
    simpl. destruct Hwin as [win ->]. simpl. eauto.
  - rewrite (request_not_expired fetch endpoint options w Hpre), snd_try_catch_on_catch.
    rewrite perform_world.
    destruct (fetch (fetch_call endpoint options w)) as [r | e]; [| exact Hwin].
    destruct (negb (status r =? 204) && negb (ok r) && (status r =? 401)); [| exact Hwin].
    apply window_after_401. exact Hwin.
Qed.

(** [logout()] ends with [setToken(null)], whatever the request did. *)
Lemma logout_world (fetch : Fetch) (w : World) :
  snd (logout fetch w) =
    setToken None None
      (snd (request fetch "/api/v1/auth/logout" (mkRequestInit (Some "POST") None None) w)).
Proof.
  unfold logout, bind, try_catch, modify, ret.
  destruct (request fetch "/api/v1/auth/logout" (mkRequestInit (Some "POST") None None) w)
    as [[v | e] w']; reflexivity.
Qed.

(** C4. Every run of [logout()] completes normally and leaves no token in
    memory, however the network call settles and also when the pre-flight
    check of the pipeline throws; in a tab it leaves no token and no expiry
    in durable storage either. *)
Theorem logout_clears_session (fetch : Fetch) (w : World) :
  fst (logout fetch w) = Return tt /\
  getToken (snd (logout fetch w)) = None /\
  (is_Some (window w) -> session_cleared (snd (logout fetch w))).
Proof.
  split; [| split].
  - unfold logout, bind, try_catch, modify, ret.
    destruct (request fetch "/api/v1/auth/logout" (mkRequestInit (Some "POST") None None) w)
      as [[v | e] w']; reflexivity.
  - rewrite logout_world. apply getToken_setToken.
  - intros Hwin. rewrite logout_world.
    destruct (window_request fetch "/api/v1/auth/logout"
                (mkRequestInit (Some "POST") None None) w Hwin) as [win' Hwin'].
    apply (session_cleared_setToken_null _ win' Hwin').
Qed.




Lemma fst_try_catch_on_catch {m : M Value} (w : World) :
  fst (try_catch m on_catch w) =
    match fst (m w) with
    | Return v => Return v
    | Throw e => Throw (if carries_status e then e else ApiError (VStr (classify e)) 0)
    end.
Proof.
  unfold try_catch. destruct (m w) as [[v | e] w']; simpl; [reflexivity | apply on_catch_result].
Qed.

(** For a JSON object the message chosen by the pipeline is the one the
    specification describes. *)
Lemma errorMessage_of_object (props : list (string * Value)) (r : Response) :
  errorMessage_of (VObj props) r = Return (spec_errorMessage props r).
Proof.
  unfold errorMessage_of, spec_errorMessage, field_of. simpl.
  destruct (assoc "detail" props) as [detail |]; simpl.
  - destruct (truthy detail); [reflexivity |].
    destruct (assoc "message" props) as [message |]; simpl.
    + destruct (truthy message); [reflexivity |].
      destruct (assoc "title" props) as [title |]; simpl; [destruct (truthy title) |]; reflexivity.
    + destruct (assoc "title" props) as [title |]; simpl; [destruct (truthy title) |]; reflexivity.
  - destruct (assoc "message" props) as [message |]; simpl.
    + destruct (truthy message); [reflexivity |].
      destruct (assoc "title" props) as [title |]; simpl; [destruct (truthy title) |]; reflexivity.
    + destruct (assoc "title" props) as [title |]; simpl; [destruct (truthy title) |]; reflexivity.
Qed.

(** The error thrown for a failed response, once its body is read. *)
Lemma request_failure (fetch : Fetch) (endpoint : string) (options : RequestInit) (w : World)
    (r : Response) (errorBody errorMessage : Value) :
  token_expired_before_request w = false ->
  fetch (fetch_call endpoint options w) = Return r ->
  ok r = false ->
  errorBody_of r = Return errorBody ->
  errorMessage_of errorBody r = Return errorMessage ->
  fst (request fetch endpoint options w) = Throw (ApiError errorMessage (status r)).
Proof.
  intros Hpre Hfetch Hok Hbody Hmsg.
  rewrite (request_not_expired fetch endpoint options w Hpre), fst_try_catch_on_catch.
  rewrite (perform_failure fetch _ r w Hfetch Hok), handle_failure_result, Hbody, Hmsg.
  reflexivity.
Qed.

(** C6, as stated, fails: a body that is not JSON and holds only [detail]
    yields its whole raw text as the message, not the value of [detail]. *)
Lemma non_json_detail_body_yields_raw_text :
  ok plain_detail_response = false /\
  isJson plain_detail_response = false /\
  fst (request (always (Return plain_detail_response)) "/api/v1/tasks" no_options valid_world)
    = Throw (ApiError (VStr detail_text) 400) /\
  fst (request (always (Return plain_detail_response)) "/api/v1/tasks" no_options valid_world)
    <> Throw (ApiError (VStr "boom") 400).
Proof.
  split; [reflexivity |]. split; [reflexivity |].
  split; [vm_compute; reflexivity | vm_compute; discriminate].
Qed.

(** C6, amended.  For every response that is not 2xx: when it is declared as
    JSON and its body is a JSON object, the message of the normalized error is
    the first of the fields [detail], [message], [title] that holds a value,
    else ["HTTP <status>: <statusText>"]; when it is not declared as JSON, the
    message is the raw text of the body.  In particular a JSON body with only
    [detail] yields that value, and a JSON object without the three fields
    yields ["HTTP <status>: <statusText>"]. *)
Theorem request_failure_message
    (fetch : Fetch) (endpoint : string) (options : RequestInit) (w : World) (r : Response) :
  token_expired_before_request w = false ->
  fetch (fetch_call endpoint options w) = Return r ->
  ok r = false ->
  (forall props, isJson r = true -> json r = Return (VObj props) ->
     fst (request fetch endpoint options w)
       = Throw (ApiError (spec_errorMessage props r) (status r))) /\
  (forall s, isJson r = false -> text r = Return s ->
     fst (request fetch endpoint options w) = Throw (ApiError (VStr s) (status r))) /\
  (forall detail, isJson r = true -> json r = Return (VObj [("detail", detail)]) ->
     truthy detail = true ->
     fst (request fetch endpoint options w) = Throw (ApiError detail (status r))) /\
  (forall props, isJson r = true -> json r = Return (VObj props) ->
     assoc "detail" props = None -> assoc "message" props = None ->
     assoc "title" props = None ->
     fst (request fetch endpoint options w)
       = Throw (ApiError (VStr ("HTTP " +:+ toString (status r) +:+ ": " +:+ statusText r))
                         (status r))).
Proof.
  intros Hpre Hfetch Hok.
  assert (forall props, isJson r = true -> json r = Return (VObj props) ->
            fst (request fetch endpoint options w)
              = Throw (ApiError (spec_errorMessage props r) (status r))) as Hobject.
  { intros props Hjson Hbody.
    apply (request_failure fetch endpoint options w r (VObj props)); try assumption.
    - unfold errorBody_of. rewrite Hjson. exact Hbody.
    - apply errorMessage_of_object. }
  split; [exact Hobject |]. split; [| split].
  - intros s Hjson Htext.
    apply (request_failure fetch endpoint options w r (VStr s)); try assumption.
    + unfold errorBody_of. rewrite Hjson, Htext. reflexivity.
    + reflexivity.
  - intros detail Hjson Hbody Htruthy.
    rewrite (Hobject _ Hjson Hbody). unfold spec_errorMessage, field_of. simpl.
    rewrite Htruthy. reflexivity.
  - intros props Hjson Hbody Hdetail Hmessage Htitle.
    rewrite (Hobject _ Hjson Hbody). unfold spec_errorMessage, field_of.
    rewrite Hdetail, Hmessage, Htitle. reflexivity.
Qed.

Lemma request_failure_message_witness :
  token_expired_before_request valid_world = false /\
  always (Return not_found_response) (fetch_call "/api/v1/tasks/7" no_options valid_world)
    = Return not_found_response /\
  ok not_found_response = false /\
  fst (request (always (Return not_found_response)) "/api/v1/tasks/7" no_options valid_world)
    = Throw (ApiError (VStr "No such task") 404).
Proof.
  split; [reflexivity |]. split; [reflexivity |]. split; [reflexivity |].
  exact (proj1 (request_failure_message (always (Return not_found_response)) "/api/v1/tasks/7"
                  no_options valid_world not_found_response eq_refl eq_refl eq_refl)
               _ eq_refl eq_refl).
Defined.

(** ** Task list *)







Lemma append_if_nil (c : bool) (k v : string) (params : list (string * string)) :
  append_if c k v params = [] <-> c = false /\ params = [].
Proof.
  unfold append_if. destruct c.
  - split; [intros H; apply app_eq_nil in H as [_ H]; discriminate H | intros [H _]; discriminate H].
  - intuition congruence.
Qed.


(** The pipeline calls [fetch] once, with the call built from its arguments. *)
Lemma fetched_handle_failure (r : Response) (w : World) :
  fetched (snd (handle_failure r w)) = fetched w.
Proof.
  rewrite handle_failure_world. destruct (status r =? 401); [| reflexivity].
  unfold after_401.
  destruct (typeof_window_defined (setToken None None w)
            && negb (on_login_page (setToken None None w))); simpl; apply fetched_setToken.
Qed.

Lemma fetched_perform (fetch : Fetch) (call : FetchCall) (w : World) :
  fetched (snd (perform fetch call w)) = fetched w ++ [call].
Proof.
  unfold perform, bind, await_fetch. destruct (fetch call) as [r | e]; [| reflexivity].
  destruct (status r =? 204); [reflexivity |].
  destruct (negb (ok r)); [apply fetched_handle_failure |].
  destruct (isJson r); [unfold lift; destruct (json r) |]; reflexivity.
Qed.

Lemma fetched_request (fetch : Fetch) (endpoint : string) (options : RequestInit) (w : World) :
  token_expired_before_request w = false ->
  fetched (snd (request fetch endpoint options w))
    = fetched w ++ [fetch_call endpoint options w].
Proof.
  intros Hpre. rewrite (request_not_expired fetch endpoint options w Hpre), snd_try_catch_on_catch.
  apply fetched_perform.
Qed.



(** ** Expiration watcher *)

Lemma ceil_div_rounds_up (a b : Z) :
  0 < b -> a <= ceil_div a b * b < a + b.
Proof.
  intros Hb. unfold ceil_div.
  pose proof (Z.div_mod (- a) b ltac:(lia)) as Hdm.
  pose proof (Z.mod_pos_bound (- a) b Hb) as Hmod.
  nia.
Qed.

(** The tick when the store holds no token or no expiry. *)
Lemma checkTokenExpiration_absent (threshold : Z) (w : World) :
  truthy_string (getToken w) = false \/ truthy_number (getTokenExpiresAt w) = false ->
  checkTokenExpiration threshold w = (Return tt, with_warningShown false w).
Proof.
  intros Habs. unfold checkTokenExpiration, bind, gets. simpl.
  destruct Habs as [-> | ->]; simpl; [reflexivity |].
  rewrite orb_true_r. reflexivity.
Qed.

(** The tick when the store holds a token and an expiry that has passed. *)
Lemma checkTokenExpiration_expired (threshold : Z) (w : World) (e : Z) :
  token_present w -> expiry_recorded w e -> e - now w <= 0 ->
  checkTokenExpiration threshold w =
    (global_sessionStorage_setItem "session_expired" "true" ;;; router_replace "/login")
      (setToken None None w).
Proof.
  intros Htok [He Hnz] Hle. unfold checkTokenExpiration, bind, gets. simpl.
  apply token_present_truthy in Htok. unfold getToken. rewrite Htok.
  rewrite He, (truthy_number_some e Hnz). simpl.
  rewrite (proj2 (Z.leb_le _ _) Hle). reflexivity.
Qed.

(** The tick when the store holds a token and an expiry still ahead. *)
Lemma checkTokenExpiration_live (threshold : Z) (w : World) (e : Z) :
  token_present w -> expiry_recorded w e -> 0 < e - now w ->
  checkTokenExpiration threshold w =
    (when (((e - now w) / 1000 <=? threshold) && negb (warningShownRef w))
       (toast_warning "Session Expiring Soon"
          (expiring_soon_description (ceil_div ((e - now w) / 1000) 60)) 10000 ;;;
        modify (with_warningShown true)) ;;;
     when (threshold + 60 <? (e - now w) / 1000) (modify (with_warningShown false))) w.
Proof.
  intros Htok [He Hnz] Hlt. unfold checkTokenExpiration, bind, gets. simpl.
  apply token_present_truthy in Htok. unfold getToken. rewrite Htok.
  rewrite He, (truthy_number_some e Hnz). simpl.
  rewrite (proj2 (Z.leb_gt _ _) Hlt). reflexivity.
Qed.

(** C8, as stated, fails: the warning does not state the remaining whole
    minutes rounded up.  With half a second left it says "0 minute", where
    the remaining time rounded up to whole minutes is 1; with 60.5 seconds
    left it says "1 minute", where it is 2. *)
Lemma half_second_left_states_zero_minutes :
  token_present half_second_world /\
  expiry_recorded half_second_world 1500 /\
  toasts (snd (checkTokenExpiration 300 half_second_world))
    = [mkToast "Session Expiring Soon"
               "Your session will expire in 0 minute. Please save your work." 10000] /\
  minutes_rounded_up (1500 - now half_second_world) = 1 /\
  toasts (snd (checkTokenExpiration 300 expiring_world))
    = [mkToast "Session Expiring Soon"
               "Your session will expire in 1 minute. Please save your work." 10000] /\
  minutes_rounded_up (61500 - now expiring_world) = 2.
Proof.
  split; [exists "valid-token"; split; [reflexivity | discriminate] |].
  split; [split; [reflexivity | discriminate] |].
  repeat split; vm_compute; reflexivity.
Qed.

(** C8, amended.  On a tick while a token and an expiry are recorded: when
    the remaining time is at most 0 the session is cleared, the "session
    ended" flag is set and the router navigates to the login view; otherwise,
    when the remaining whole seconds (the remaining milliseconds divided by
    1000 and rounded down) are at most the threshold and no warning has been
    shown, exactly one warning is raised, with the text "Your session will
    expire in m minute(s). Please save your work." where m is the remaining
    whole seconds divided by 60 and rounded up, and the warning flag is set;
    once the flag is set no further warning is raised.  The flag is reset
    only when the remaining whole seconds exceed the threshold plus 60, or
    when the token or the expiry is absent. *)
Theorem checkTokenExpiration_tick (threshold : Z) (w : World) :
  (forall win e,
     window w = Some win -> token_present w -> expiry_recorded w e ->
     (e - now w <= 0 ->
        session_cleared (snd (checkTokenExpiration threshold w)) /\
        session_ended_flag (snd (checkTokenExpiration threshold w)) /\
        replaced (snd (checkTokenExpiration threshold w)) = replaced w ++ ["/login"] /\
        toasts (snd (checkTokenExpiration threshold w)) = toasts w) /\
     (0 < e - now w -> (e - now w) / 1000 <= threshold -> warningShownRef w = false ->
        toasts (snd (checkTokenExpiration threshold w))
          = toasts w ++
            [mkToast "Session Expiring Soon"
               ("Your session will expire in "
                +:+ toString (ceil_div ((e - now w) / 1000) 60)
                +:+ " minute"
                +:+ (if 1 <? ceil_div ((e - now w) / 1000) 60 then "s" else "")
                +:+ ". Please save your work.")
               10000] /\
        warningShownRef (snd (checkTokenExpiration threshold w)) = true) /\
     (warningShownRef w = true ->
        toasts (snd (checkTokenExpiration threshold w)) = toasts w)) /\
  (warningShownRef w = true ->
   warningShownRef (snd (checkTokenExpiration threshold w)) = false ->
   ~ token_present w \/ (forall e, ~ expiry_recorded w e) \/
   exists e, expiry_recorded w e /\ threshold + 60 < (e - now w) / 1000).
Proof.
  split.
  - intros win e Hwin Htok Hexp. split; [| split].
    + intros Hle. rewrite (checkTokenExpiration_expired threshold w e Htok Hexp Hle).
      destruct (sessionStorage_setToken None None w win Hwin) as (win' & Hwin' & _ & _).
      pose proof (session_cleared_setToken_null w win Hwin) as Hcleared.
      unfold bind, global_sessionStorage_setItem, router_replace, modify. rewrite Hwin'. simpl.
      split; [| split; [| split]].
      * revert Hcleared. unfold session_cleared, durable_token, durable_expiry. simpl.
        rewrite Hwin'. simpl. auto.
      * unfold session_ended_flag. simpl. rewrite Hwin'. simpl.
        eexists. split; [reflexivity |]. apply lookup_insert_eq.
      * f_equal. apply setToken_frame.
      * apply setToken_frame.
    + intros Hlt Hsecs Hshown.
      rewrite (checkTokenExpiration_live threshold w e Htok Hexp Hlt).
      rewrite (proj2 (Z.leb_le _ _) Hsecs), Hshown.
      assert ((threshold + 60 <? (e - now w) / 1000) = false) as -> by (apply Z.ltb_ge; lia).
      split; reflexivity.
    + intros Hshown. destruct (Z_le_gt_dec (e - now w) 0) as [Hle | Hgt].
      * rewrite (checkTokenExpiration_expired threshold w e Htok Hexp Hle).
        destruct (sessionStorage_setToken None None w win Hwin) as (win' & Hwin' & _ & _).
        unfold bind, global_sessionStorage_setItem, router_replace, modify. rewrite Hwin'. simpl.
        apply setToken_frame.
      * rewrite (checkTokenExpiration_live threshold w e Htok Hexp ltac:(lia)).
        rewrite Hshown, andb_false_r. unfold bind, when, modify, ret. simpl.
        destruct (threshold + 60 <? (e - now w) / 1000); reflexivity.
  - intros Hshown Hreset.
    destruct (truthy_string (getToken w)) eqn:Htok.
    2:{ left. intros Hp. apply token_present_truthy in Hp. unfold getToken in Htok. congruence. }
    destruct (truthy_number (getTokenExpiresAt w)) eqn:Hexp.
    2:{ right; left. intros e [He Hnz]. rewrite He, (truthy_number_some e Hnz) in Hexp.
        discriminate Hexp. }
    apply truthy_number_true in Hexp as (e & He & Hnz).
    assert (token_present w) as Hp by (apply token_present_truthy; exact Htok).
    assert (expiry_recorded w e) as Hr by (split; assumption).
    right; right. exists e. split; [exact Hr |].
    destruct (Z_le_gt_dec (e - now w) 0) as [Hle | Hgt].
    + exfalso. rewrite (checkTokenExpiration_expired threshold w e Hp Hr Hle) in Hreset.
      unfold bind, global_sessionStorage_setItem, router_replace, modify in Hreset.
      pose proof (setToken_frame None None w) as (_ & _ & _ & _ & Hframe).
      destruct (window (setToken None None w)); simpl in Hreset; congruence.
    + rewrite (checkTokenExpiration_live threshold w e Hp Hr ltac:(lia)) in Hreset.
      rewrite Hshown, andb_false_r in Hreset. unfold bind, when, modify, ret in Hreset.
      simpl in Hreset.
      destruct (threshold + 60 <? (e - now w) / 1000) eqn:Hfar; simpl in Hreset.
      * apply Z.ltb_lt. exact Hfar.
      * congruence.
Qed.

Lemma checkTokenExpiration_tick_witness :
  window expiring_world = Some (tab "/tasks") /\
  token_present expiring_world /\
  expiry_recorded expiring_world 61500 /\
  toasts (snd (checkTokenExpiration 300 expiring_world))
    = [mkToast "Session Expiring Soon"
               "Your session will expire in 1 minute. Please save your work." 10000] /\
  warningShownRef (snd (checkTokenExpiration 300 expiring_world)) = true.
Proof.
  assert (token_present expiring_world) as Htok.
  { exists "valid-token". split; [reflexivity | discriminate]. }
  assert (expiry_recorded expiring_world 61500) as Hexp.
  { split; [reflexivity | discriminate]. }
  split; [reflexivity |]. split; [exact Htok |]. split; [exact Hexp |].
  exact (proj1 (proj2 (proj1 (checkTokenExpiration_tick 300 expiring_world)
                         (tab "/tasks") 61500 eq_refl Htok Hexp))
               eq_refl ltac:(discriminate) eq_refl).
Defined.

(** ** Values at the border of presence *)

(** The empty string and the number 0 are falsy, and the store treats them
    as it treats [null]. *)
Lemma isTokenExpired_expiry_zero (w : World) :
  token_present w -> getTokenExpiresAt w = Some 0 -> isTokenExpired w = false.
Proof.
  intros Htok Hzero. unfold isTokenExpired.
  apply token_present_truthy in Htok. rewrite Htok. unfold getTokenExpiresAt in Hzero.
  rewrite Hzero. reflexivity.
Qed.

Lemma setToken_empty_string (secs : option Z) (w : World) (win : Window) :
  window w = Some win ->
  getToken (setToken (Some "") secs w) = Some "" /\
  getTokenExpiresAt (setToken (Some "") secs w) = None /\
  durable_token (setToken (Some "") secs w) = None /\
  durable_expiry (setToken (Some "") secs w) = None.
Proof.
  intros Hwin. split; [apply getToken_setToken |].
  rewrite (setToken_falsy (Some "") secs w win Hwin eq_refl).
  unfold durable_token, durable_expiry. simpl. rewrite Hwin. simpl.
  repeat split.
  - rewrite lookup_delete_ne by done. apply lookup_delete_eq.
  - apply lookup_delete_eq.
Qed.

Lemma request_with_empty_token (w : World) :
  getToken w = Some "" -> token_expired_before_request w = false.
Proof. unfold token_expired_before_request, getToken. intros ->. reflexivity. Qed.

(** ** Runs of the test suite of the client *)

(** "should reject requests when token is expired" *)
Example run_expired_token :
  let '(result, w') :=
    getTasks (always (Return unauthorized_response)) None
             (setToken (Some "expired-token") (Some (-1)) (world0 None None "/tasks" 5000)) in
  result = Throw session_expired_error /\ getToken w' = None /\ fetched w' = [] /\
  (sessionStorage <$> window w') = Some {[ "session_expired" := "true" ]}.
Proof. vm_compute. repeat split. Qed.

(** "should handle 401 and clear token" *)
Example run_unauthorized :
  let '(result, w') := getTasks (always (Return unauthorized_response)) None valid_world in
  result = Throw (ApiError (VStr "Unauthorized") 401) /\ getToken w' = None /\
  (sessionStorage <$> window w') = Some {[ "session_expired" := "true" ]}.
Proof. vm_compute. repeat split. Qed.

(** "should handle login failure": on the login view the 401 neither sets
    the flag nor redirects. *)
Example run_invalid_credentials :
  let '(result, w') :=
    request (always (Return invalid_credentials_response)) "/api/v1/auth/login"
            (mkRequestInit (Some "POST") None (Some "{}")) (world0 None None "/login" 1000) in
  result = Throw (ApiError (VStr "Invalid credentials") 401) /\
  window w' = Some (tab "/login").
Proof. vm_compute. repeat split. Qed.

(** "should handle network errors" *)
Example run_failed_to_fetch :
  fst (getTasks (always (Throw (VError "Failed to fetch" []))) None valid_world)
  = Throw (ApiError
             (VStr "Unable to connect to the server. Please check your internet connection and try again.")
             0).
Proof. vm_compute. reflexivity. Qed.

(** "should handle JSON parse errors" *)
Example run_text_error_body :
  fst (getTasks (always (Return server_error_response)) None valid_world)
  = Throw (ApiError (VStr "Internal Server Error") 500).
Proof. vm_compute. reflexivity. Qed.

(** "should update a task": a 204 response resolves with an empty object. *)
Example run_no_content :
  fst (request (always (Return no_content_response)) "/api/v1/tasks/7"
               (mkRequestInit (Some "PUT") None (Some "{}")) valid_world)
  = Return (VObj []).
Proof. vm_compute. reflexivity. Qed.

(** "should clear token even if logout request fails" *)
Example run_logout_network_error :
  let '(result, w') :=
    logout (always (Throw (VError "Network error" []))) (world0 (Some "test-token") None "/tasks" 1000) in
  result = Return tt /\ getToken w' = None.
Proof. vm_compute. repeat split. Qed.

(** "should get tasks with filters" *)
Example run_endpoint_with_filters :
  getTasks_endpoint
    (Some (Filters.mk (Some 1) (Some 20) None (Some (Some PENDING)) (Some CREATED_DESC)))
  = "/api/v1/tasks?page=1&size=20&status=PENDING&sort=CREATED_DESC".
Proof. vm_compute. reflexivity. Qed.

Example run_endpoint_encodes_query :
  getTasks_endpoint (Some (Filters.mk None None (Some (Some "milk & eggs")) (Some None) None))
  = "/api/v1/tasks?q=milk+%26+eggs".
Proof. vm_compute. reflexivity. Qed.

(** The bearer header is sent when there is a token and left out otherwise. *)
Example run_authorization_header :
  call_headers (fetch_call "/api/v1/tasks" no_options valid_world) !! "Authorization"
    = Some "Bearer valid-token" /\
  call_headers (fetch_call "/api/v1/tasks" no_options (world0 None None "/login" 1000))
    !! "Authorization" = None.
Proof. vm_compute. repeat split. Qed.

(** * Further properties of the client *)

(** ** What the pipeline sends, returns and throws *)

Lemma carries_status_ApiError (message : Value) (st : Z) :
  carries_status (ApiError message st) = true.
Proof. reflexivity. Qed.

(** Choosing the message of a failed response throws only when a property
    of [null] or [undefined] is read. *)
Lemma errorMessage_of_throws (errorBody : Value) (r : Response) (e : Value) :
  errorMessage_of errorBody r = Throw e -> exists what k, e = TypeError what k.
Proof.
  unfold errorMessage_of.
  destruct errorBody as [| | b | n | s | items | props | text props]; simpl.
  1, 2: intros [= <-]; eauto.
  1, 2, 3, 4: discriminate.
  - destruct (truthy (default VUndefined (assoc "detail" props))); [discriminate |].
    destruct (truthy (default VUndefined (assoc "message" props))); [discriminate |].
    destruct (truthy (default VUndefined (assoc "title" props))); discriminate.
  - destruct (truthy (default VUndefined (assoc "detail" props))); [discriminate |].
    destruct (negb (text =? "")%string); [discriminate |].
    destruct (truthy (default VUndefined (assoc "title" props))); discriminate.
Qed.

(** Where a value thrown inside the [try] block comes from. *)
Lemma perform_throws (fetch : Fetch) (call : FetchCall) (w : World) (e : Value) :
  fst (perform fetch call w) = Throw e ->
  fetch call = Throw e \/
  exists r, fetch call = Return r /\
    (json r = Throw e \/ text r = Throw e \/
     (exists message, e = ApiError message (status r)) \/
     (exists what k, e = TypeError what k)).
Proof.
  unfold perform, bind, await_fetch. destruct (fetch call) as [r | e0] eqn:Hfetch.
  2:{ simpl. intros [= ->]. left. reflexivity. }
  intros Hthrow. right. exists r. split; [reflexivity |].
  destruct (status r =? 204); [discriminate Hthrow |].
  destruct (ok r); simpl in Hthrow.
  - destruct (isJson r); [| discriminate Hthrow].
    unfold lift in Hthrow. simpl in Hthrow. left. exact Hthrow.
  - rewrite handle_failure_result in Hthrow. unfold errorBody_of in Hthrow.
    destruct (isJson r).
    + destruct (json r) as [errorBody | e1]; [| left; exact Hthrow].
      destruct (errorMessage_of errorBody r) as [message | e1] eqn:Hmsg.
      * injection Hthrow as <-. right; right; left. eauto.
      * injection Hthrow as ->. right; right; right.
        apply (errorMessage_of_throws _ _ _ Hmsg).
    + destruct (text r) as [s | e1]; [| injection Hthrow as ->; right; left; reflexivity].
      simpl in Hthrow. injection Hthrow as <-. right; right; left. eauto.
Qed.

(** X1. Whatever the network does, a value thrown by the pipeline carries a
    [status] field: it is a normalized error built by the pipeline, or a value
    that the network itself rejected with and that already had the field. *)
Theorem request_throws_with_status
    (fetch : Fetch) (endpoint : string) (options : RequestInit) (w : World) (e : Value) :
  fst (request fetch endpoint options w) = Throw e ->
  carries_status e = true /\
  ((exists message st, e = ApiError message st) \/
   fetch (fetch_call endpoint options w) = Throw e \/
   exists r, fetch (fetch_call endpoint options w) = Return r /\
             (json r = Throw e \/ text r = Throw e)).
Proof.
  destruct (token_expired_before_request w) eqn:Hpre.
  - rewrite (request_expired fetch endpoint options w Hpre). simpl. intros [= <-].
    split; [reflexivity |]. left. unfold session_expired_error. eauto.
  - rewrite (request_not_expired fetch endpoint options w Hpre), fst_try_catch_on_catch.
    destruct (fst (perform fetch (fetch_call endpoint options w) w)) as [v | e0] eqn:Hperform;
      [discriminate |].
    intros [= <-]. destruct (carries_status e0) eqn:Hstatus.
    + split; [exact Hstatus |].
      destruct (perform_throws fetch _ w e0 Hperform)
        as [Hf | (r & Hf & [Hj | [Ht | [[message ->] | (what & k & ->)]]])].
      * right; left. exact Hf.
      * right; right. eauto.
      * right; right. eauto.
      * left. eauto.
      * discriminate Hstatus.
    + split; [reflexivity |]. left. eauto.
Qed.

Lemma request_throws_with_status_witness :
  fst (request (always (Return not_found_response)) "/api/v1/tasks/7" no_options valid_world)
    = Throw (ApiError (VStr "No such task") 404) /\
  carries_status (ApiError (VStr "No such task") 404) = true.
Proof.
  assert (fst (request (always (Return not_found_response)) "/api/v1/tasks/7" no_options
                       valid_world) = Throw (ApiError (VStr "No such task") 404)) as Hrun
    by (vm_compute; reflexivity).
  split; [exact Hrun |].
  exact (proj1 (request_throws_with_status (always (Return not_found_response))
                  "/api/v1/tasks/7" no_options valid_world _ Hrun)).
Defined.

(** X2. Only a response with status 401, or an expiry found before the call,
    ends the session: after any other call (a success, a failure with another
    status, a failure of the network) the world is as before, but for the
    record of the call: token, expiry, both storages and the location are
    untouched. *)
Theorem request_keeps_session
    (fetch : Fetch) (endpoint : string) (options : RequestInit) (w : World) :
  token_expired_before_request w = false ->
  (forall r, fetch (fetch_call endpoint options w) = Return r -> status r <> 401) ->
  snd (request fetch endpoint options w)
    = with_fetched (fetched w ++ [fetch_call endpoint options w]) w.
Proof.
  intros Hpre Hnot401.
  rewrite (request_not_expired fetch endpoint options w Hpre), snd_try_catch_on_catch.
  rewrite perform_world.
  destruct (fetch (fetch_call endpoint options w)) as [r | e]; [| reflexivity].
  assert ((status r =? 401) = false) as -> by (apply Z.eqb_neq, Hnot401; reflexivity).
  rewrite andb_false_r. reflexivity.
Qed.

Lemma request_keeps_session_witness :
  token_expired_before_request valid_world = false /\
  (forall r, always (Return server_error_response)
               (fetch_call "/api/v1/tasks" no_options valid_world) = Return r ->
             status r <> 401) /\
  getToken (snd (request (always (Return server_error_response)) "/api/v1/tasks" no_options
                         valid_world)) = Some "valid-token".
Proof.
  assert (forall r, always (Return server_error_response)
                      (fetch_call "/api/v1/tasks" no_options valid_world) = Return r ->
                    status r <> 401) as Hnot401.
  { intros r [= <-]. discriminate. }
  split; [reflexivity |]. split; [exact Hnot401 |].
  rewrite (request_keeps_session (always (Return server_error_response)) "/api/v1/tasks"
             no_options valid_world eq_refl Hnot401).
  reflexivity.
Defined.

(** The result of the pipeline for a response that is [ok]. *)
Lemma perform_ok (fetch : Fetch) (call : FetchCall) (r : Response) (w : World) :
  fetch call = Return r -> ok r = true ->
  fst (perform fetch call w) =
    if (status r =? 204) || negb (isJson r) then Return (VObj []) else json r.
Proof.
  intros Hf Hok. unfold perform, bind, await_fetch. rewrite Hf.
  destruct (status r =? 204); [reflexivity |]. rewrite Hok. simpl.
  destruct (isJson r); reflexivity.
Qed.

(** X3. A response with status 204, and a 2xx response that is not declared
    as JSON, resolve with an empty object whatever the body holds; a 2xx
    response declared as JSON resolves with the parsed body, and when the
    body does not parse the call fails with a normalized error of status 0. *)
Theorem request_success
    (fetch : Fetch) (endpoint : string) (options : RequestInit) (w : World) (r : Response) :
  token_expired_before_request w = false ->
  fetch (fetch_call endpoint options w) = Return r ->
  ok r = true ->
  (status r = 204 \/ isJson r = false ->
     fst (request fetch endpoint options w) = Return (VObj [])) /\
  (status r <> 204 -> isJson r = true -> forall v, json r = Return v ->
     fst (request fetch endpoint options w) = Return v) /\
  (status r <> 204 -> isJson r = true -> forall e, json r = Throw e ->
     carries_status e = false ->
     fst (request fetch endpoint options w) = Throw (ApiError (VStr (classify e)) 0)).
Proof.
  intros Hpre Hfetch Hok.
  rewrite (request_not_expired fetch endpoint options w Hpre), fst_try_catch_on_catch.
  rewrite (perform_ok fetch _ r w Hfetch Hok).
  split; [| split].
  - intros [H204 | Hjson].
    + rewrite H204. reflexivity.
    + rewrite Hjson, orb_true_r. reflexivity.
  - intros H204 Hjson v Hbody.
    apply Z.eqb_neq in H204. rewrite H204, Hjson, Hbody. reflexivity.
  - intros H204 Hjson e Hbody Hstatus.
    apply Z.eqb_neq in H204. rewrite H204, Hjson, Hbody. simpl. rewrite Hstatus. reflexivity.
Qed.

Lemma request_success_witness :
  token_expired_before_request valid_world = false /\
  always (Return task_list_response) (fetch_call "/api/v1/tasks" no_options valid_world)
    = Return task_list_response /\
  ok task_list_response = true /\
  fst (request (always (Return task_list_response)) "/api/v1/tasks" no_options valid_world)
    = Return (VObj [("items", VArr []); ("total", VNum 0)]).
Proof.
  split; [reflexivity |]. split; [reflexivity |]. split; [reflexivity |].
  exact (proj1 (proj2 (request_success (always (Return task_list_response)) "/api/v1/tasks"
                         no_options valid_world task_list_response eq_refl eq_refl eq_refl))
               ltac:(discriminate) eq_refl _ eq_refl).
Defined.

(** X4. When the body of a failed response declared as JSON cannot be used,
    the HTTP status is lost: a body that is [null], and a body that does not
    parse, give a normalized error of status 0 with a generic message.  The
    session is cleared all the same when the status was 401. *)
Theorem request_failure_unreadable_body
    (fetch : Fetch) (endpoint : string) (options : RequestInit) (w : World) (r : Response) :
  token_expired_before_request w = false ->
  fetch (fetch_call endpoint options w) = Return r ->
  ok r = false ->
  isJson r = true ->
  (json r = Return VNull ->
     fst (request fetch endpoint options w)
       = Throw (ApiError (VStr "An error occurred. Please try again.") 0)) /\
  (forall e, json r = Throw e -> carries_status e = false ->
     fst (request fetch endpoint options w) = Throw (ApiError (VStr (classify e)) 0)) /\
  (status r = 401 -> getToken (snd (request fetch endpoint options w)) = None).
Proof.
  intros Hpre Hfetch Hok Hjson.
  rewrite (request_not_expired fetch endpoint options w Hpre), fst_try_catch_on_catch,
    snd_try_catch_on_catch.
  rewrite (perform_failure fetch _ r w Hfetch Hok), handle_failure_result, handle_failure_world.
  unfold errorBody_of. rewrite Hjson.
  split; [| split].
  - intros ->. reflexivity.
  - intros e -> Hstatus. rewrite Hstatus. reflexivity.
  - intros ->. simpl. unfold after_401.
    destruct (typeof_window_defined _ && negb (on_login_page _)); apply getToken_setToken.
Qed.

Lemma request_failure_unreadable_body_witness :
  token_expired_before_request valid_world = false /\
  always (Return null_body_response) (fetch_call "/api/v1/tasks" no_options valid_world)
    = Return null_body_response /\
  ok null_body_response = false /\
  isJson null_body_response = true /\
  fst (request (always (Return null_body_response)) "/api/v1/tasks" no_options valid_world)
    = Throw (ApiError (VStr "An error occurred. Please try again.") 0).
Proof.
  split; [reflexivity |]. split; [reflexivity |]. split; [reflexivity |]. split; [reflexivity |].
  exact (proj1 (request_failure_unreadable_body (always (Return null_body_response))
                  "/api/v1/tasks" no_options valid_world null_body_response
                  eq_refl eq_refl eq_refl eq_refl) eq_refl).
Defined.

(** X5. A call that passes the pre-flight check calls [fetch] exactly once,
    with cookies included ([credentials: "include"]).  The [Authorization]
    header is ["Bearer <token>"] whenever a token is held, also when the
    caller passed an [Authorization] header of its own; without a token the
    caller's header, if any, goes out unchanged.  The caller's [Content-Type]
    replaces the default ["application/json"], and every other header of the
    caller is sent as it is. *)
Theorem request_sends
    (fetch : Fetch) (endpoint : string) (options : RequestInit) (w : World) :
  token_expired_before_request w = false ->
  exists call,
    fetched (snd (request fetch endpoint options w)) = fetched w ++ [call] /\
    call_url call = baseUrl (apiClient w) +:+ endpoint /\
    call_credentials call = "include" /\
    (forall t, getToken w = Some t -> t <> "" ->
       call_headers call !! "Authorization" = Some ("Bearer " +:+ t)) /\
    (~ token_present w ->
       call_headers call !! "Authorization"
         = default ∅ (headers options) !! "Authorization") /\
    call_headers call !! "Content-Type"
      = Some (default "application/json" (default ∅ (headers options) !! "Content-Type")) /\
    (forall k, k <> "Authorization" -> k <> "Content-Type" ->
       call_headers call !! k = default ∅ (headers options) !! k).
Proof.
  intros Hpre. exists (fetch_call endpoint options w).
  split; [apply (fetched_request fetch endpoint options w Hpre) |].
  split; [reflexivity |]. split; [reflexivity |].
  unfold fetch_call, request_headers, getToken. simpl.
  set (own := default ∅ (headers options)).
  assert (forall k, (own ∪ {["Content-Type" := "application/json"]}) !! k
                    = match own !! k with
                      | Some v => Some v
                      | None => if decide (k = "Content-Type") then Some "application/json"
                                else None
                      end) as Hdefault.
  { intros k. rewrite lookup_union. destruct (own !! k) as [v |] eqn:Hk; simpl.
    - destruct ({["Content-Type" := "application/json"]} !! k); reflexivity.
    - destruct (decide (k = "Content-Type")) as [-> | Hne].
      + rewrite lookup_singleton_eq. reflexivity.
      + rewrite lookup_singleton_ne by done. reflexivity. }
  split; [| split; [| split]].
  - intros t Ht Hne. rewrite Ht, (truthy_string_some t Hne). simpl. apply lookup_insert_eq.
  - intros Habsent.
    destruct (truthy_string (token (apiClient w))) eqn:Htok.
    { exfalso. apply Habsent, token_present_truthy. exact Htok. }
    rewrite Hdefault. destruct (own !! "Authorization"); reflexivity.
  - destruct (truthy_string (token (apiClient w))).
    + rewrite lookup_insert_ne by done. rewrite Hdefault.
      destruct (own !! "Content-Type"); reflexivity.
    + rewrite Hdefault. destruct (own !! "Content-Type"); reflexivity.
  - intros k Hauth Hct.
    destruct (truthy_string (token (apiClient w))).
    + rewrite lookup_insert_ne by done. rewrite Hdefault.
      destruct (own !! k); [reflexivity |]. destruct (decide (k = "Content-Type")); done.
    + rewrite Hdefault.
      destruct (own !! k); [reflexivity |]. destruct (decide (k = "Content-Type")); done.
Qed.

Lemma request_sends_witness :
  token_expired_before_request valid_world = false /\
  exists call,
    fetched (snd (request (always (Return no_content_response)) "/api/v1/tasks"
                          own_headers_options valid_world)) = [call] /\
    call_headers call !! "Authorization" = Some "Bearer valid-token" /\
    call_headers call !! "Content-Type" = Some "text/plain" /\
    call_headers call !! "X-Trace" = Some "1".
Proof.
  split; [reflexivity |].
  destruct (request_sends (always (Return no_content_response)) "/api/v1/tasks"
              own_headers_options valid_world eq_refl)
    as (call & Hfetched & _ & _ & Hauth & _ & Hct & Hother).
  exists call. split; [exact Hfetched |].
  split; [apply (Hauth "valid-token" eq_refl); discriminate |].
  split; [rewrite Hct; vm_compute; reflexivity |].
  rewrite (Hother "X-Trace") by discriminate. vm_compute. reflexivity.
Defined.

(** ** The expiry queries of the store *)

Lemma isTokenExpiringSoon_recorded (threshold : option Z) (w : World) (e : Z) :
  token_present w -> expiry_recorded w e ->
  isTokenExpiringSoon threshold w = (e - default 300 threshold * 1000 <=? now w).
Proof.
  intros Htok [He Hnz]. unfold isTokenExpiringSoon.
  apply token_present_truthy in Htok. rewrite Htok. unfold getTokenExpiresAt in He.
  rewrite He, (truthy_number_some e Hnz). reflexivity.
Qed.

Lemma isTokenExpired_recorded (w : World) (e : Z) :
  token_present w -> expiry_recorded w e -> isTokenExpired w = (e <=? now w).
Proof.
  intros Htok [He Hnz]. unfold isTokenExpired.
  apply token_present_truthy in Htok. rewrite Htok. unfold getTokenExpiresAt in He.
  rewrite He, (truthy_number_some e Hnz). reflexivity.
Qed.



(** X7. The two queries of the store differ on a store without a token:
    [isTokenExpired()] answers true and [isTokenExpiringSoon()] answers false.
    With a token they agree in this: a token that is expired is expiring soon
    for every threshold that is not negative, and a token that is expiring
    soon for one threshold is so for every larger one; a token without an
    expiry is neither expired nor expiring soon. *)
Theorem expired_and_expiring_soon (w : World) :
  (~ token_present w ->
     isTokenExpired w = true /\ forall threshold, isTokenExpiringSoon threshold w = false) /\
  (token_present w -> (forall e, ~ expiry_recorded w e) ->
     isTokenExpired w = false /\ forall threshold, isTokenExpiringSoon threshold w = false) /\
  (token_present w -> isTokenExpired w = true ->
     forall threshold, 0 <= threshold -> isTokenExpiringSoon (Some threshold) w = true) /\
  (forall t1 t2, t1 <= t2 -> isTokenExpiringSoon (Some t1) w = true ->
     isTokenExpiringSoon (Some t2) w = true).
Proof.
  assert (forall threshold, truthy_number (tokenExpiresAt (apiClient w)) = false ->
            isTokenExpiringSoon threshold w = false) as Hnone.
  { intros threshold Hexp. unfold isTokenExpiringSoon. rewrite Hexp, orb_true_r. reflexivity. }
  assert ((forall e, ~ expiry_recorded w e) ->
            truthy_number (tokenExpiresAt (apiClient w)) = false) as Hunrecorded.
  { intros Hno. destruct (truthy_number _) eqn:Hexp; [| reflexivity].
    apply truthy_number_true in Hexp as (e & He & Hnz). destruct (Hno e). split; assumption. }
  split; [| split; [| split]].
  - intros Habsent.
    assert (truthy_string (token (apiClient w)) = false) as Htok.
    { destruct (truthy_string _) eqn:Htok; [| reflexivity].
      destruct Habsent. apply token_present_truthy. exact Htok. }
    unfold isTokenExpired, isTokenExpiringSoon. rewrite Htok. split; reflexivity.
  - intros Htok Hno. split; [| intros threshold; apply Hnone, Hunrecorded, Hno].
    unfold isTokenExpired. apply token_present_truthy in Htok.
    rewrite Htok, (Hunrecorded Hno). reflexivity.
  - intros Htok Hexpired threshold Hpos.
    destruct (truthy_number (tokenExpiresAt (apiClient w))) eqn:Hexp.
    + apply truthy_number_true in Hexp as (e & He & Hnz).
      assert (expiry_recorded w e) as Hrec by (split; assumption).
      rewrite (isTokenExpired_recorded w e Htok Hrec) in Hexpired.
      rewrite (isTokenExpiringSoon_recorded (Some threshold) w e Htok Hrec).
      apply Z.leb_le in Hexpired. apply Z.leb_le. simpl. lia.
    + unfold isTokenExpired in Hexpired. apply token_present_truthy in Htok.
      rewrite Htok, Hexp in Hexpired. discriminate Hexpired.
  - intros t1 t2 Hle. unfold isTokenExpiringSoon.
    destruct (negb (truthy_string (token (apiClient w)))
              || negb (truthy_number (tokenExpiresAt (apiClient w)))); [discriminate |].
    destruct (tokenExpiresAt (apiClient w)) as [e |]; [| discriminate].
    simpl. rewrite !Z.leb_le. lia.
Qed.

(** ** Runs of the expiration watcher *)

Lemma tick_absent (threshold t : Z) (w : World) :
  truthy_string (getToken w) = false \/ truthy_number (getTokenExpiresAt w) = false ->
  tick threshold t w = with_warningShown false (with_now t w).
Proof.
  intros Habs. unfold tick.
  rewrite (checkTokenExpiration_absent threshold (with_now t w) Habs). reflexivity.
Qed.

Lemma tick_live (threshold t : Z) (w : World) (e : Z) :
  token_present w -> expiry_recorded w e -> 0 < e - t ->
  tick threshold t w =
    if ((e - t) / 1000 <=? threshold) && negb (warningShownRef w)
    then with_warningShown true
           (with_toasts
              (toasts w ++ [mkToast "Session Expiring Soon"
                              (expiring_soon_description (ceil_div ((e - t) / 1000) 60)) 10000])
              (with_now t w))
    else if threshold + 60 <? (e - t) / 1000
         then with_warningShown false (with_now t w)
         else with_now t w.
Proof.
  intros Htok Hexp Hlt. unfold tick.
  rewrite (checkTokenExpiration_live threshold (with_now t w) e Htok Hexp Hlt).
  unfold bind, when, toast_warning, modify, ret. simpl.
  destruct ((e - t) / 1000 <=? threshold) eqn:Hsoon; simpl.
  - destruct (warningShownRef w); simpl.
    + destruct (threshold + 60 <? (e - t) / 1000); reflexivity.
    + assert ((threshold + 60 <? (e - t) / 1000) = false) as ->
        by (apply Z.ltb_ge; apply Z.leb_le in Hsoon; lia).
      reflexivity.
  - destruct (threshold + 60 <? (e - t) / 1000); reflexivity.
Qed.

(** The tick that finds the token expired: with or without a window the
    token is gone afterwards, and nothing is announced. *)
Lemma tick_expired (threshold t : Z) (w : World) (e : Z) :
  token_present w -> expiry_recorded w e -> e - t <= 0 ->
  getToken (tick threshold t w) = None /\
  toasts (tick threshold t w) = toasts w /\
  (is_Some (window w) ->
     replaced (tick threshold t w) = replaced w ++ ["/login"] /\
     session_ended_flag (tick threshold t w) /\
     is_Some (window (tick threshold t w))).
Proof.
  intros Htok Hexp Hle. unfold tick.
  rewrite (checkTokenExpiration_expired threshold (with_now t w) e Htok Hexp Hle).
  pose proof (getToken_setToken None None (with_now t w)) as Hnone.
  pose proof (setToken_frame None None (with_now t w)) as (_ & _ & Htoasts & Hreplaced & _).
  unfold bind, global_sessionStorage_setItem, router_replace, modify.
  destruct (window (setToken None None (with_now t w))) as [win' |] eqn:Hwin'; simpl.
  - split; [exact Hnone |]. split; [exact Htoasts |]. intros _.
    split; [f_equal; exact Hreplaced |].
    unfold session_ended_flag. simpl. rewrite Hwin'. simpl.
    split; [eexists; split; [reflexivity | apply lookup_insert_eq] | eauto].
  - split; [exact Hnone |]. split; [exact Htoasts |]. intros Hwin.
    apply (window_setToken None None (with_now t w)) in Hwin.
    rewrite Hwin' in Hwin. destruct Hwin as [? [=]].
Qed.

(** Once quiet, the watcher stays quiet as time goes on, and raises nothing. *)
Lemma tick_quiet (threshold t0 t : Z) (w : World) :
  watcher_quiet threshold t0 w -> t0 <= t ->
  toasts (tick threshold t w) = toasts w /\ watcher_quiet threshold t (tick threshold t w).
Proof.
  intros Hquiet Hle.
  destruct Hquiet as [Habs | [Habs | (Hshown & e & Htok & Hexp & Hsoon)]].
  - rewrite (tick_absent threshold t w (or_introl Habs)).
    split; [reflexivity | left; exact Habs].
  - rewrite (tick_absent threshold t w (or_intror Habs)).
    split; [reflexivity | right; left; exact Habs].
  - destruct (Z_le_gt_dec (e - t) 0) as [Hpast | Hahead].
    + destruct (tick_expired threshold t w e Htok Hexp Hpast) as (Hnone & Htoasts & _).
      split; [exact Htoasts |]. left. rewrite Hnone. reflexivity.
    + assert ((e - t) / 1000 <= threshold) as Hsoon'.
      { etransitivity; [| exact Hsoon]. apply Z.div_le_mono; lia. }
      rewrite (tick_live threshold t w e Htok Hexp ltac:(lia)).
      rewrite Hshown, andb_false_r.
      assert ((threshold + 60 <? (e - t) / 1000) = false) as -> by (apply Z.ltb_ge; lia).
      split; [reflexivity |]. right; right. split; [exact Hshown |].
      exists e. split; [exact Htok |]. split; [exact Hexp | exact Hsoon'].
Qed.

Lemma run_ticks_quiet (threshold : Z) (times : list Z) (t0 : Z) (w : World) :
  watcher_quiet threshold t0 w ->
  StronglySorted Z.le (t0 :: times) ->
  toasts (run_ticks threshold times w) = toasts w.
Proof.
  revert t0 w. induction times as [| t times IH]; intros t0 w Hquiet Hsorted; [reflexivity |].
  apply StronglySorted_inv in Hsorted as [Htail Hall].
  apply Forall_cons in Hall as [Hle _].
  destruct (tick_quiet threshold t0 t w Hquiet Hle) as [Htoasts Hquiet'].
  simpl. rewrite (IH t (tick threshold t w) Hquiet' Htail). exact Htoasts.
Qed.

(** One tick raises at most one warning, and is quiet after raising it. *)
Lemma tick_warns (threshold t : Z) (w : World) :
  toasts (tick threshold t w) = toasts w \/
  ((exists toast, toasts (tick threshold t w) = toasts w ++ [toast]) /\
   watcher_quiet threshold t (tick threshold t w)).
Proof.
  destruct (truthy_string (getToken w)) eqn:Htok.
  2:{ left. rewrite (tick_absent threshold t w (or_introl Htok)). reflexivity. }
  destruct (truthy_number (getTokenExpiresAt w)) eqn:Hexp.
  2:{ left. rewrite (tick_absent threshold t w (or_intror Hexp)). reflexivity. }
  apply token_present_truthy in Htok.
  apply truthy_number_true in Hexp as (e & He & Hnz).
  assert (expiry_recorded w e) as Hrec by (split; assumption).
  destruct (Z_le_gt_dec (e - t) 0) as [Hpast | Hahead].
  { left. apply (tick_expired threshold t w e Htok Hrec Hpast). }
  rewrite (tick_live threshold t w e Htok Hrec ltac:(lia)).
  destruct ((e - t) / 1000 <=? threshold) eqn:Hsoon; simpl.
  - destruct (warningShownRef w); simpl.
    + left. destruct (threshold + 60 <? (e - t) / 1000); reflexivity.
    + right. split; [eexists; reflexivity |].
      right; right. split; [reflexivity |].
      exists e. split; [exact Htok |]. split; [exact Hrec |]. apply Z.leb_le. exact Hsoon.
  - left. destruct (threshold + 60 <? (e - t) / 1000); reflexivity.
Qed.

(** X8. Over a run of the watcher, with the check called at instants that
    do not go back in time and nothing else touching the session, at most one
    warning is raised, whatever the threshold, the state of the store and the
    state of the warning flag at the start. *)
Theorem watcher_warns_at_most_once (threshold : Z) (times : list Z) (w : World) :
  Sorted Z.le times ->
  exists l, toasts (run_ticks threshold times w) = toasts w ++ l /\ (length l <= 1)%nat.
Proof.
  intros Hsorted. apply Sorted_StronglySorted in Hsorted; [| intros x y z; apply Z.le_trans].
  revert w. induction times as [| t times IH]; intros w.
  { exists []. split; [symmetry; apply app_nil_r | simpl; lia]. }
  simpl. destruct (tick_warns threshold t w) as [Hsame | [[toast Hone] Hquiet]].
  - apply StronglySorted_inv in Hsorted as [Htail _].
    destruct (IH Htail (tick threshold t w)) as (l & Hl & Hlen).
    exists l. rewrite Hl, Hsame. auto.
  - exists [toast]. rewrite (run_ticks_quiet threshold times t _ Hquiet Hsorted), Hone.
    split; [reflexivity | simpl; lia].
Qed.

Lemma watcher_warns_at_most_once_witness :
  Sorted Z.le [1000; 61000; 121000] /\
  exists l, toasts (run_ticks 300 [1000; 61000; 121000] expiring_world)
            = toasts expiring_world ++ l /\ (length l <= 1)%nat.
Proof.
  assert (Sorted Z.le [1000; 61000; 121000]) as Hsorted.
  { repeat constructor; discriminate. }
  split; [exact Hsorted |].
  exact (watcher_warns_at_most_once 300 [1000; 61000; 121000] expiring_world Hsorted).
Defined.

Lemma tick_live_frame (threshold t : Z) (w : World) (e : Z) :
  token_present w -> expiry_recorded w e -> 0 < e - t ->
  apiClient (tick threshold t w) = apiClient w /\
  window (tick threshold t w) = window w /\
  replaced (tick threshold t w) = replaced w.
Proof.
  intros Htok Hexp Hlt. rewrite (tick_live threshold t w e Htok Hexp Hlt).
  destruct (((e - t) / 1000 <=? threshold) && negb (warningShownRef w));
    [| destruct (threshold + 60 <? (e - t) / 1000)]; repeat split.
Qed.

(** The watcher never brings a token back. *)
Lemma run_ticks_cleared (threshold : Z) (times : list Z) (w : World) :
  getToken w = None ->
  getToken (run_ticks threshold times w) = None /\
  replaced (run_ticks threshold times w) = replaced w /\
  window (run_ticks threshold times w) = window w.
Proof.
  revert w. induction times as [| t times IH]; intros w Hnone; [repeat split; exact Hnone |].
  simpl.
  assert (tick threshold t w = with_warningShown false (with_now t w)) as Htick.
  { apply tick_absent. left. rewrite Hnone. reflexivity. }
  destruct (IH (tick threshold t w)) as (Htok & Hreplaced & Hwin).
  { rewrite Htick. exact Hnone. }
  rewrite Htok, Hreplaced, Hwin, Htick. repeat split.
Qed.

(** X9. Over a run of the watcher in a tab that holds a token and an
    expiry: when a check falls at or after the expiry, the run ends with no
    token, with the "session ended" flag set and with exactly one navigation
    to the login view, however many checks follow; when every check falls
    before the expiry, the token and the expiry are as at the start and the
    watcher has not navigated. *)
Theorem watcher_ends_session_once (threshold : Z) (times : list Z) (w : World) (e : Z) :
  is_Some (window w) -> token_present w -> expiry_recorded w e ->
  (Exists (fun t => e <= t) times ->
     getToken (run_ticks threshold times w) = None /\
     replaced (run_ticks threshold times w) = replaced w ++ ["/login"] /\
     session_ended_flag (run_ticks threshold times w)) /\
  (Forall (fun t => t < e) times ->
     getToken (run_ticks threshold times w) = getToken w /\
     getTokenExpiresAt (run_ticks threshold times w) = Some e /\
     replaced (run_ticks threshold times w) = replaced w).
Proof.
  revert w. induction times as [| t times IH]; intros w Hwin Htok Hexp.
  { split; [intros Hex; inversion Hex | intros _; repeat split; apply Hexp]. }
  simpl. destruct (Z_le_gt_dec e t) as [Hpast | Hbefore].
  - destruct (tick_expired threshold t w e Htok Hexp ltac:(lia)) as (Hnone & _ & Hends).
    destruct (Hends Hwin) as (Hreplaced & (win' & Hwin' & Hflag) & _).
    destruct (run_ticks_cleared threshold times _ Hnone) as (Hnone' & Hreplaced' & Hwindow').
    split.
    + intros _. split; [exact Hnone' |]. split; [rewrite Hreplaced', Hreplaced; reflexivity |].
      exists win'. split; [rewrite Hwindow'; exact Hwin' | exact Hflag].
    + intros Hall. apply Forall_cons in Hall as [Hlt _]. lia.
  - destruct (tick_live_frame threshold t w e Htok Hexp ltac:(lia)) as (Hclient & Hwindow & Hrepl).
    assert (token_present (tick threshold t w)) as Htok'.
    { unfold token_present, getToken. rewrite Hclient. exact Htok. }
    assert (expiry_recorded (tick threshold t w) e) as Hexp'.
    { unfold expiry_recorded, getTokenExpiresAt. rewrite Hclient. exact Hexp. }
    assert (is_Some (window (tick threshold t w))) as Hwin' by (rewrite Hwindow; exact Hwin).
    destruct (IH (tick threshold t w) Hwin' Htok' Hexp') as [Hsome Hnever].
    unfold getToken in *. rewrite Hclient, Hrepl in *. split.
    + intros Hex. apply Exists_cons in Hex as [Hle | Hex]; [lia | exact (Hsome Hex)].
    + intros Hall. apply Forall_cons in Hall as [_ Hall]. exact (Hnever Hall).
Qed.

Lemma watcher_ends_session_once_witness :
  is_Some (window expiring_world) /\
  token_present expiring_world /\
  expiry_recorded expiring_world 61500 /\
  Exists (fun t => 61500 <= t) [1000; 61000; 121000; 181000] /\
  replaced (run_ticks 300 [1000; 61000; 121000; 181000] expiring_world) = ["/login"].
Proof.
  assert (token_present expiring_world) as Htok.
  { exists "valid-token". split; [reflexivity | discriminate]. }
  assert (expiry_recorded expiring_world 61500) as Hexp.
  { split; [reflexivity | discriminate]. }
  assert (Exists (fun t => 61500 <= t) [1000; 61000; 121000; 181000]) as Hex.
  { right; right; left. discriminate. }
  split; [eexists; reflexivity |]. split; [exact Htok |]. split; [exact Hexp |].
  split; [exact Hex |].
  exact (proj1 (proj2 (proj1 (watcher_ends_session_once 300 [1000; 61000; 121000; 181000]
                                expiring_world 61500 (ex_intro _ _ eq_refl) Htok Hexp) Hex))).
Defined.

(** ** Expiry found by the pipeline and by the watcher *)

Lemma getToken_after_expiry (w : World) : getToken (after_expiry w) = None.
Proof.
  unfold after_expiry. destruct (typeof_window_defined (setToken None None w)); simpl;
    apply getToken_setToken.
Qed.

Lemma no_token_passes_preflight (w : World) :
  getToken w = None -> token_expired_before_request w = false.
Proof. unfold token_expired_before_request, getToken. intros ->. reflexivity. Qed.

(** X10. An expiry is acted on once.  In a store that holds an expired
    token, once a call of the pipeline has found it, a check of the watcher
    does no more than reset its flag: no navigation, no warning, no write to
    storage; and once a check of the watcher has found it, a call of the
    pipeline passes the pre-flight check and goes to the network without
    adding a bearer header, instead of failing a second time. *)
Theorem expiry_is_handled_once (w : World) (e : Z) :
  token_present w -> expiry_recorded w e -> e <= now w ->
  (forall fetch endpoint options threshold t,
     tick threshold t (snd (request fetch endpoint options w))
       = with_warningShown false (with_now t (snd (request fetch endpoint options w)))) /\
  (forall threshold t fetch endpoint options, e <= t ->
     token_expired_before_request (tick threshold t w) = false /\
     fetched (snd (request fetch endpoint options (tick threshold t w)))
       = fetched (tick threshold t w) ++ [fetch_call endpoint options (tick threshold t w)] /\
     call_headers (fetch_call endpoint options (tick threshold t w)) !! "Authorization"
       = default ∅ (headers options) !! "Authorization").
Proof.
  intros Htok Hexp Hle. split.
  - intros fetch endpoint options threshold t.
    assert (token_expired_before_request w = true) as Hpre.
    { unfold token_expired_before_request.
      rewrite (isTokenExpired_passed w e Htok Hexp Hle).
      apply token_present_truthy in Htok. rewrite Htok. reflexivity. }
    rewrite (request_expired fetch endpoint options w Hpre). simpl.
    apply tick_absent. left. rewrite getToken_after_expiry. reflexivity.
  - intros threshold t fetch endpoint options Hpast.
    destruct (tick_expired threshold t w e Htok Hexp ltac:(lia)) as (Hnone & _ & _).
    pose proof (no_token_passes_preflight _ Hnone) as Hpre.
    split; [exact Hpre |]. split; [apply (fetched_request fetch endpoint options _ Hpre) |].
    unfold fetch_call, request_headers. simpl. unfold getToken in Hnone. rewrite Hnone. simpl.
    rewrite lookup_union. destruct (default ∅ (headers options) !! "Authorization"); reflexivity.
Qed.

Lemma expiry_is_handled_once_witness :
  token_present expired_world /\ expiry_recorded expired_world 500 /\
  500 <= now expired_world /\
  tick 300 2000 (snd (request (always (Return task_list_response)) "/api/v1/tasks" no_options
                              expired_world))
    = with_warningShown false
        (with_now 2000 (snd (request (always (Return task_list_response)) "/api/v1/tasks"
                                     no_options expired_world))).
Proof.
  assert (token_present expired_world) as Htok.
  { exists "expired-token". split; [reflexivity | discriminate]. }
  assert (expiry_recorded expired_world 500) as Hexp.
  { split; [reflexivity | discriminate]. }
  split; [exact Htok |]. split; [exact Hexp |]. split; [discriminate |].
  exact (proj1 (expiry_is_handled_once expired_world 500 Htok Hexp ltac:(discriminate))
               (always (Return task_list_response)) "/api/v1/tasks" no_options 300 2000).
Defined.

(** ** The login view and the "session ended" flag *)

Lemma LoginForm_on_mount_flagged (w : World) :
  session_ended_flag w ->
  LoginForm_on_mount w
    = (Some session_expired_notice, sessionStorage_removeItem "session_expired" w).
Proof.
  intros (win & Hwin & Hflag). unfold LoginForm_on_mount. rewrite Hwin.
  rewrite bool_decide_eq_true_2 by exact Hflag. reflexivity.
Qed.

Lemma LoginForm_on_mount_unflagged (w : World) :
  ~ session_ended_flag w -> LoginForm_on_mount w = (None, w).
Proof.
  intros Hno. unfold LoginForm_on_mount. destruct (window w) as [win |] eqn:Hwin; [| reflexivity].
  rewrite bool_decide_eq_false_2; [reflexivity |].
  intros Hflag. apply Hno. exists win. auto.
Qed.

Lemma flag_removed (w : World) :
  ~ session_ended_flag (sessionStorage_removeItem "session_expired" w).
Proof.
  intros (win & Hwin & Hflag). unfold sessionStorage_removeItem, on_window in Hwin.
  simpl in Hwin. destruct (window w) as [win0 |]; simpl in Hwin; [| discriminate Hwin].
  injection Hwin as <-. simpl in Hflag. rewrite lookup_delete_eq in Hflag. discriminate Hflag.
Qed.

(** X11. The "session ended" flag is read once.  The login view raises its
    notice on mount exactly when the flag is set to ["true"], and removes the
    flag as it does; a second mount then raises nothing and changes nothing.
    The session itself (token, expiry, [localStorage]) and the location are
    not touched. *)
Theorem LoginForm_reads_flag_once (w : World) :
  (fst (LoginForm_on_mount w) = Some session_expired_notice <-> session_ended_flag w) /\
  (fst (LoginForm_on_mount w) = None <-> ~ session_ended_flag w) /\
  LoginForm_on_mount (snd (LoginForm_on_mount w)) = (None, snd (LoginForm_on_mount w)) /\
  apiClient (snd (LoginForm_on_mount w)) = apiClient w /\
  durable_token (snd (LoginForm_on_mount w)) = durable_token w /\
  durable_expiry (snd (LoginForm_on_mount w)) = durable_expiry w /\
  (location <$> window (snd (LoginForm_on_mount w))) = (location <$> window w).
Proof.
  assert (session_ended_flag w \/ ~ session_ended_flag w) as [Hflag | Hno].
  { unfold session_ended_flag. destruct (window w) as [win |].
    - destruct (decide (sessionStorage win !! "session_expired" = Some "true")) as [H | H].
      + left. eauto.
      + right. intros (win' & [= <-] & H'). contradiction.
    - right. intros (win' & [=] & _). }
  - rewrite (LoginForm_on_mount_flagged w Hflag). simpl.
    split; [split; auto |]. split; [split; [discriminate | contradiction] |].
    split; [apply LoginForm_on_mount_unflagged, flag_removed |].
    unfold durable_token, durable_expiry. simpl.
    destruct (window w); repeat split.
  - rewrite (LoginForm_on_mount_unflagged w Hno). simpl.
    split; [split; [discriminate | contradiction] |]. split; [split; auto |].
    split; [apply (LoginForm_on_mount_unflagged w Hno) |]. repeat split.
Qed.

(** X12. When the notice for the login view is left.  In a tab, the next
    mount of the login view raises the notice after a call of the pipeline
    has found the token expired, after the watcher has found the token
    expired, and after a response with status 401 received on a view whose
    path does not contain ["/login"].  A response with status 401 received on
    a view whose path contains ["/login"] (the login view itself, and any
    other such view, like [/tasks/login-help]) ends the session without
    leaving a notice: the next mount raises one only if the flag was set
    before the call. *)
Theorem session_end_is_announced (w : World) :
  is_Some (window w) ->
  (forall fetch endpoint options,
     token_expired_before_request w = true ->
     fst (LoginForm_on_mount (snd (request fetch endpoint options w)))
       = Some session_expired_notice) /\
  (forall fetch endpoint options r,
     token_expired_before_request w = false ->
     fetch (fetch_call endpoint options w) = Return r -> status r = 401 ->
     (on_login_page w = false ->
        fst (LoginForm_on_mount (snd (request fetch endpoint options w)))
          = Some session_expired_notice) /\
     (on_login_page w = true ->
        getToken (snd (request fetch endpoint options w)) = None /\
        fst (LoginForm_on_mount (snd (request fetch endpoint options w)))
          = fst (LoginForm_on_mount w))) /\
  (forall threshold t e,
     token_present w -> expiry_recorded w e -> e <= t ->
     fst (LoginForm_on_mount (tick threshold t w)) = Some session_expired_notice).
Proof.
  intros Hwin. split; [| split].
  - intros fetch endpoint options Hpre.
    rewrite (request_expired fetch endpoint options w Hpre). simpl.
    apply (window_setToken None None) in Hwin. destruct Hwin as [win' Hwin'].
    unfold after_expiry, typeof_window_defined. rewrite Hwin'.
    rewrite bool_decide_eq_true_2 by eauto.
    rewrite LoginForm_on_mount_flagged; [reflexivity |].
    apply (flagged_and_redirected _ win' Hwin').
  - intros fetch endpoint options r Hpre Hfetch H401.
    rewrite (request_401_world fetch endpoint options w r Hpre Hfetch H401).
    set (w1 := after_fetch (fetch_call endpoint options w) w).
    destruct Hwin as [win Hwin].
    destruct (sessionStorage_setToken None None w1 win Hwin) as (win' & Hwin' & Hss & _).
    unfold after_401, typeof_window_defined.
    rewrite on_login_page_setToken, Hwin', bool_decide_eq_true_2 by eauto.
    change (on_login_page w1) with (on_login_page w). split.
    + intros Hlogin. rewrite Hlogin. simpl.
      rewrite LoginForm_on_mount_flagged; [reflexivity |].
      apply (flagged_and_redirected _ win' Hwin').
    + intros Hlogin. rewrite Hlogin. simpl. split; [apply getToken_setToken |].
      unfold LoginForm_on_mount. rewrite Hwin', Hwin, Hss.
      destruct (bool_decide _); reflexivity.
  - intros threshold t e Htok Hexp Hle.
    destruct (tick_expired threshold t w e Htok Hexp ltac:(lia)) as (_ & _ & Hends).
    destruct (Hends Hwin) as (_ & Hflag & _).
    rewrite (LoginForm_on_mount_flagged _ Hflag). reflexivity.
Qed.

Lemma session_end_is_announced_witness :
  is_Some (window expired_world) /\
  token_expired_before_request expired_world = true /\
  fst (LoginForm_on_mount
         (snd (request (always (Return task_list_response)) "/api/v1/tasks" no_options
                       expired_world)))
    = Some session_expired_notice.
Proof.
  split; [eexists; reflexivity |]. split; [reflexivity |].
  exact (proj1 (session_end_is_announced expired_world (ex_intro _ _ eq_refl))
               (always (Return task_list_response)) "/api/v1/tasks" no_options eq_refl).
Defined.

(** ** Reloads: the constructor reads back what [setToken] wrote *)










Example parseInt10_examples :
  parseInt10 "1700000000000" = Finite 1700000000000 /\
  parseInt10 "  42px" = Finite 42 /\
  parseInt10 "-17.5" = Finite (-17) /\
  parseInt10 "+7" = Finite 7 /\
  parseInt10 "abc" = NaN /\
  parseInt10 "" = NaN /\
  parseInt10 "-" = NaN.
Proof. vm_compute. repeat split. Qed.

(** What a reload constructs depends on the base URL and on [localStorage]
    only. *)
Lemma reloaded_frame (w w' : World) :
  baseUrl (apiClient w') = baseUrl (apiClient w) ->
  (localStorage <$> window w') = (localStorage <$> window w) ->
  reloaded w' = reloaded w.
Proof.
  unfold reloaded, new_ApiClient. intros -> Hls.
  destruct (window w') as [win' |], (window w) as [win |]; simpl in Hls; try discriminate Hls.
  - injection Hls as ->. reflexivity.
  - reflexivity.
Qed.

Lemma reloaded_setToken_null (secs : option Z) (w : World) (win : Window) :
  window w = Some win ->
  reloaded (setToken None secs w) = Some (apiClient (setToken None secs w)).
Proof.
  intros Hwin. rewrite (setToken_falsy None secs w win Hwin eq_refl).
  unfold reloaded, new_ApiClient, client_of. simpl. rewrite Hwin. simpl.
  rewrite lookup_delete_eq. simpl.
  rewrite lookup_delete_ne by done. rewrite lookup_delete_eq. reflexivity.
Qed.






(** ** Memory and storage stay in step *)

Lemma same_store_refl (w : World) : same_store w w.
Proof. split; reflexivity. Qed.

Lemma same_store_trans (w1 w2 w3 : World) :
  same_store w1 w2 -> same_store w2 w3 -> same_store w1 w3.
Proof. intros [H1 H2] [H3 H4]. split; congruence. Qed.

Lemma same_store_in_step (w' w : World) :
  same_store w' w -> storage_in_step w -> storage_in_step w'.
Proof.
  intros [Hclient Hls] Hstep. unfold storage_in_step.
  rewrite (reloaded_frame w w'), Hclient; [exact Hstep | congruence | exact Hls].
Qed.

Lemma same_store_flagged (w : World) :
  same_store (set_location_href "/login" (sessionStorage_setItem "session_expired" "true" w)) w.
Proof. split; [reflexivity |]. simpl. destruct (window w); reflexivity. Qed.

Lemma same_store_after_expiry (w : World) : same_store (after_expiry w) (setToken None None w).
Proof.
  unfold after_expiry. destruct (typeof_window_defined _);
    [apply same_store_flagged | apply same_store_refl].
Qed.

Lemma same_store_after_401 (w : World) : same_store (after_401 w) (setToken None None w).
Proof.
  unfold after_401. destruct (_ && _);
    [apply same_store_flagged | apply same_store_refl].
Qed.

Lemma same_store_setToken_null (w' w : World) :
  same_store w' w -> same_store (setToken None None w') (setToken None None w).
Proof.
  intros [Hclient Hls]. unfold setToken, same_store. simpl.
  destruct (window w') as [win' |] eqn:Hwin', (window w) as [win |] eqn:Hwin;
    simpl in *; try discriminate Hls; rewrite ?Hwin', ?Hwin, Hclient; simpl.
  - injection Hls as ->. split; reflexivity.
  - split; reflexivity.
Qed.

Lemma in_step_setToken_null (w : World) :
  storage_in_step w -> storage_in_step (setToken None None w).
Proof.
  intros Hstep. destruct (window w) as [win |] eqn:Hwin.
  - exact (reloaded_setToken_null None w win Hwin).
  - revert Hstep. rewrite (setToken_no_window None None w Hwin).
    unfold storage_in_step, reloaded, new_ApiClient, client_of. simpl. rewrite Hwin. simpl.
    intros [= <-]. reflexivity.
Qed.

(** A request leaves the session store as it was, or as [setToken(null)]
    leaves it. *)
Lemma request_store (fetch : Fetch) (endpoint : string) (options : RequestInit) (w : World) :
  same_store (snd (request fetch endpoint options w)) w \/
  same_store (snd (request fetch endpoint options w)) (setToken None None w).
Proof.
  destruct (token_expired_before_request w) eqn:Hpre.
  - right. rewrite (request_expired fetch endpoint options w Hpre). apply same_store_after_expiry.
  - rewrite (request_not_expired fetch endpoint options w Hpre), snd_try_catch_on_catch.
    rewrite perform_world.
    assert (same_store (after_fetch (fetch_call endpoint options w) w) w) as Hfetch
      by (split; reflexivity).
    destruct (fetch _) as [r | e]; [| left; exact Hfetch].
    destruct (_ && _ && _); [right | left; exact Hfetch].
    eapply same_store_trans; [apply same_store_after_401 |].
    apply same_store_setToken_null, Hfetch.
Qed.

(** A run of the watcher's check does the same. *)
Lemma tick_store (threshold t : Z) (w : World) :
  same_store (tick threshold t w) w \/
  same_store (tick threshold t w) (setToken None None w).
Proof.
  unfold tick, checkTokenExpiration, bind, gets, modify, when, ret,
    global_sessionStorage_setItem, router_replace, toast_warning.
  simpl.
  destruct (negb _ || negb _); simpl; [left; split; reflexivity |].
  destruct (_ <=? 0); simpl.
  - right. destruct (window (setToken None None (with_now t w))) as [win |] eqn:Hwin; simpl.
    + eapply same_store_trans;
        [| apply (same_store_setToken_null (with_now t w) w); split; reflexivity].
      split; [reflexivity |]. simpl. rewrite Hwin. reflexivity.
    + apply (same_store_setToken_null (with_now t w) w). split; reflexivity.
  - left. destruct (_ && negb _); simpl; destruct (_ <? _); simpl; split; reflexivity.
Qed.

(** X14. Memory and [localStorage] stay in step.  If the token and expiry
    held in memory are those a reload of the page would read back from
    [localStorage], then the same holds after any request, whatever the
    server answers, after [logout], and after any run of the expiration
    watcher: none of them changes one without the other. *)
Theorem session_store_stays_in_step (w : World) :
  storage_in_step w ->
  (forall fetch endpoint options,
     storage_in_step (snd (request fetch endpoint options w))) /\
  (forall fetch, storage_in_step (snd (logout fetch w))) /\
  (forall threshold times, storage_in_step (run_ticks threshold times w)).
Proof.
  intros Hstep.
  assert (forall fetch endpoint options w0, storage_in_step w0 ->
            storage_in_step (snd (request fetch endpoint options w0))) as Hrequest.
  { intros fetch endpoint options w0 H0.
    destruct (request_store fetch endpoint options w0) as [Hsame | Hsame];
      eapply same_store_in_step; eauto using in_step_setToken_null. }
  split; [| split].
  - intros fetch endpoint options. apply Hrequest, Hstep.
  - intros fetch. rewrite logout_world. apply in_step_setToken_null, Hrequest, Hstep.
  - intros threshold times. revert w Hstep.
    induction times as [| t times IH]; intros w Hstep; [exact Hstep |].
    simpl. apply IH.
    destruct (tick_store threshold t w) as [Hsame | Hsame];
      eapply same_store_in_step; eauto using in_step_setToken_null.
Qed.

Lemma session_store_stays_in_step_witness :
  storage_in_step previous_session /\
  storage_in_step
    (snd (request (always (Return unauthorized_response)) "/api/v1/tasks" no_options
            previous_session)).
Proof.
  assert (storage_in_step previous_session) as Hstep by (vm_compute; reflexivity).
  split; [exact Hstep |].
  exact (proj1 (session_store_stays_in_step _ Hstep)
           (always (Return unauthorized_response)) "/api/v1/tasks" no_options).
Defined.

(** ** Signing in and out *)

Lemma request_throws_carries_status
    (fetch : Fetch) (endpoint : string) (options : RequestInit) (w : World) (e : Value) :
  fst (request fetch endpoint options w) = Throw e -> carries_status e = true.
Proof.
  destruct (token_expired_before_request w) eqn:Hpre.
  - rewrite (request_expired fetch endpoint options w Hpre). simpl. intros [= <-]. reflexivity.
  - rewrite (request_not_expired fetch endpoint options w Hpre), fst_try_catch_on_catch.
    destruct (fst (perform _ _ _)) as [v | e0]; [discriminate |].
    intros [= <-]. destruct (carries_status e0) eqn:Hstatus; [exact Hstatus | reflexivity].
Qed.

(** The pipeline does not use the router. *)
Lemma replaced_request (fetch : Fetch) (endpoint : string) (options : RequestInit) (w : World) :
  replaced (snd (request fetch endpoint options w)) = replaced w.
Proof.
  assert (forall w0, replaced (setToken None None w0) = replaced w0) as Hset
    by (intros w0; apply setToken_frame).
  destruct (token_expired_before_request w) eqn:Hpre.
  - rewrite (request_expired fetch endpoint options w Hpre). simpl.
    unfold after_expiry. destruct (typeof_window_defined _); simpl; apply Hset.
  - rewrite (request_not_expired fetch endpoint options w Hpre), snd_try_catch_on_catch.
    rewrite perform_world.
    destruct (fetch _) as [r | e]; [| reflexivity].
    destruct (_ && _ && _); [| reflexivity].
    unfold after_401. destruct (_ && negb _); simpl; rewrite Hset; reflexivity.
Qed.

Lemma login_unfold (JSON_stringify : Serializer) (fetch : Fetch) (credentials : Value)
    (arrival : Z) (w : World) :
  login JSON_stringify fetch credentials arrival w =
    match get credentials "username" with
    | Throw e => Some (Throw e, w)
    | Return _ =>
        match request fetch "/api/v1/auth/login" (login_options JSON_stringify credentials) w with
        | (Throw e, w1) => Some (Throw e, w1)
        | (Return response, w1) => login_response response arrival w1
        end
    end.
Proof.
  unfold login, bind, lift.
  destruct (get credentials "username") as [u | e]; reflexivity.
Qed.




(** What [login] does after the response has arrived does not reach the
    network or the router. *)
Lemma login_response_frame (response : Value) (arrival : Z) (w : World)
    (c : Completion Value) (w' : World) :
  login_response response arrival w = Some (c, w') ->
  fetched w' = fetched w /\ replaced w' = replaced w /\
  (is_Some (window w') <-> is_Some (window w)).
Proof.
  unfold login_response.
  destruct (get response "token") as [tok | e]; [| intros [= <- <-]; tauto].
  destruct (get response "expiresInSeconds") as [secs | e]; [| intros [= <- <-]; tauto].
  destruct (truthy tok); [| intros [= <- <-]; tauto].
  destruct tok as [| | b | n | t | items | props | text props]; try discriminate.
  destruct (lifetime_of secs) as [lifetime |]; [| discriminate].
  intros [= <- <-].
  destruct (setToken_frame (Some t) lifetime (with_now arrival w)) as (_ & Hf & _ & Hr & _).
  rewrite Hf, Hr, window_setToken. tauto.
Qed.

(** X16. A stale token blocks the first sign-in.  When the store still
    holds an expired token, [login] does not reach the server: it fails with
    the "session has expired" error of status 401, clears the token, and in a
    tab sets the "session ended" flag and navigates to the login view.  The
    next attempt passes the pre-flight check: it makes one call, without a
    bearer header. *)
Theorem login_with_stale_token
    (JSON_stringify : Serializer) (fetch : Fetch) (credentials : list (string * Value))
    (arrival : Z) (w : World) :
  token_expired_before_request w = true ->
  login JSON_stringify fetch (VObj credentials) arrival w
    = Some (Throw session_expired_error, after_expiry w) /\
  fetched (after_expiry w) = fetched w /\
  getToken (after_expiry w) = None /\
  (is_Some (window w) ->
     session_ended_flag (after_expiry w) /\ redirected_to_login (after_expiry w)) /\
  (forall arrival' c w',
     login JSON_stringify fetch (VObj credentials) arrival' (after_expiry w) = Some (c, w') ->
     exists call,
       fetched w' = fetched w ++ [call] /\
       call_url call = baseUrl (apiClient w) +:+ "/api/v1/auth/login" /\
       call_headers call !! "Authorization" = None).
Proof.
  intros Hpre.
  assert (fetched (after_expiry w) = fetched w) as Hfetched.
  { unfold after_expiry. destruct (typeof_window_defined _); simpl; apply fetched_setToken. }
  assert (baseUrl (apiClient (after_expiry w)) = baseUrl (apiClient w)) as Hbase.
  { unfold after_expiry. destruct (typeof_window_defined _); simpl;
      setToken_cases (@None string) (@None Z) w; reflexivity. }
  split; [| split; [| split; [| split]]].
  - rewrite login_unfold. simpl get.
    rewrite (request_expired fetch _ _ w Hpre). reflexivity.
  - exact Hfetched.
  - apply getToken_after_expiry.
  - intros [win Hwin]. unfold after_expiry.
    destruct (sessionStorage_setToken None None w win Hwin) as (win' & Hwin' & _).
    unfold typeof_window_defined. rewrite Hwin'. rewrite bool_decide_eq_true_2 by eauto.
    apply (flagged_and_redirected _ win' Hwin').
  - intros arrival' c w'. rewrite login_unfold. simpl get.
    pose proof (getToken_after_expiry w) as Hnone.
    pose proof (no_token_passes_preflight _ Hnone) as Hpre'.
    pose proof (fetched_request fetch "/api/v1/auth/login"
                  (login_options JSON_stringify (VObj credentials)) _ Hpre') as Hcall.
    destruct (request fetch _ _ (after_expiry w)) as [[response | e] w1]; simpl in Hcall.
    + intros Hresponse. apply login_response_frame in Hresponse as (Hf & _ & _).
      eexists. rewrite Hf, Hcall, Hfetched. split; [reflexivity |]. split.
      * simpl. rewrite Hbase. reflexivity.
      * unfold fetch_call, request_headers. simpl. unfold getToken in Hnone. rewrite Hnone.
        simpl. rewrite lookup_union. reflexivity.
    + intros [= <- <-].
      eexists. rewrite Hcall, Hfetched. split; [reflexivity |]. split.
      * simpl. rewrite Hbase. reflexivity.
      * unfold fetch_call, request_headers. simpl. unfold getToken in Hnone. rewrite Hnone.
        simpl. rewrite lookup_union. reflexivity.
Qed.

Lemma login_with_stale_token_witness :
  token_expired_before_request stale_login_world = true /\
  login stringify0 (always (Return token_response)) credentials0 2000 stale_login_world
    = Some (Throw session_expired_error, after_expiry stale_login_world).
Proof.
  split; [reflexivity |].
  exact (proj1 (login_with_stale_token stringify0 (always (Return token_response))
                  [("username", VStr "alice"); ("password", VStr "secret")] 2000
                  stale_login_world eq_refl)).
Defined.

(** What a call resolves with: the empty object, or the parsed body of a
    2xx response. *)
Lemma request_returns (fetch : Fetch) (endpoint : string) (options : RequestInit) (w : World)
    (v : Value) :
  fst (request fetch endpoint options w) = Return v ->
  v = VObj [] \/
  exists r, fetch (fetch_call endpoint options w) = Return r /\ ok r = true /\ json r = Return v.
Proof.
  destruct (token_expired_before_request w) eqn:Hpre.
  { rewrite (request_expired fetch endpoint options w Hpre). discriminate. }
  rewrite (request_not_expired fetch endpoint options w Hpre), fst_try_catch_on_catch.
  destruct (fetch (fetch_call endpoint options w)) as [r | e] eqn:Hfetch.
  2:{ rewrite (perform_rejected fetch _ e w Hfetch). discriminate. }
  destruct (ok r) eqn:Hok.
  - rewrite (perform_ok fetch _ r w Hfetch Hok).
    destruct (_ || _).
    + intros [= <-]. left. reflexivity.
    + destruct (json r) as [v0 | e] eqn:Hjson; [| discriminate].
      intros [= <-]. right. eauto.
  - rewrite (perform_failure fetch _ r w Hfetch Hok), handle_failure_result.
    destruct (errorBody_of r) as [errorBody | e]; [| discriminate].
    destruct (errorMessage_of errorBody r); discriminate.
Qed.

(** The message that the hooks show for a thrown value is never empty. *)
Lemma message_or_default (e : Value) (fallback : string) :
  instanceof_Error e = true \/ carries_status e = true ->
  fallback <> "" ->
  exists message,
    get e "message" = Return message /\
    truthy (if truthy message then message else VStr fallback) = true.
Proof.
  intros He Hfallback.
  assert (forall message, truthy (if truthy message then message else VStr fallback) = true)
    as Htruthy.
  { intros message. destruct (truthy message) eqn:Hm; [exact Hm |].
    simpl. apply negb_true_iff, String.eqb_neq, Hfallback. }
  destruct e as [| | b | n | s | items | props | text props];
    try (destruct He as [He | He]; discriminate He); simpl; eauto.
Qed.

Lemma login_throws (JSON_stringify : Serializer) (fetch : Fetch) (credentials : Value)
    (arrival : Z) (w : World) (e : Value) (w1 : World) :
  login JSON_stringify fetch credentials arrival w = Some (Throw e, w1) ->
  (instanceof_Error e = true \/ carries_status e = true) /\ replaced w1 = replaced w.
Proof.
  rewrite login_unfold.
  assert (forall (v : Value) k e0, get v k = Throw e0 -> instanceof_Error e0 = true) as Hget.
  { intros v k e0. destruct v; simpl; intros [= <-]; reflexivity. }
  destruct (get credentials "username") as [u | e0] eqn:Husername.
  2:{ intros [= <- <-]. split; [left; apply (Hget _ _ _ Husername) | reflexivity]. }
  pose proof (replaced_request fetch "/api/v1/auth/login"
                (login_options JSON_stringify credentials) w) as Hreplaced.
  pose proof (request_throws_carries_status fetch "/api/v1/auth/login"
                (login_options JSON_stringify credentials) w) as Hstatus.
  destruct (request fetch _ _ w) as [[response | e0] w0]; simpl in *.
  2:{ intros [= <- <-]. split; [right; apply Hstatus; reflexivity | exact Hreplaced]. }
  unfold login_response.
  destruct (get response "token") as [tok | e0] eqn:Htoken.
  2:{ intros [= <- <-]. split; [left; apply (Hget _ _ _ Htoken) | exact Hreplaced]. }
  destruct (get response "expiresInSeconds") as [secs | e0] eqn:Hsecs.
  2:{ intros [= <- <-]. split; [left; apply (Hget _ _ _ Hsecs) | exact Hreplaced]. }
  destruct (truthy tok); [| discriminate].
  destruct tok; try discriminate. destruct (lifetime_of secs); discriminate.
Qed.

Lemma login_returns (JSON_stringify : Serializer) (fetch : Fetch) (credentials : Value)
    (arrival : Z) (w : World) (response : Value) (w1 : World) :
  login JSON_stringify fetch credentials arrival w = Some (Return response, w1) ->
  replaced w1 = replaced w.
Proof.
  rewrite login_unfold.
  destruct (get credentials "username") as [u | e0]; [| discriminate].
  pose proof (replaced_request fetch "/api/v1/auth/login"
                (login_options JSON_stringify credentials) w) as Hreplaced.
  destruct (request fetch _ _ w) as [[response0 | e0] w0]; simpl in *; [| discriminate].
  intros Hresponse. apply login_response_frame in Hresponse as (_ & Hr & _). congruence.
Qed.

(** With responses of the declared type, [login] is inside the embedding. *)
Lemma login_defined (JSON_stringify : Serializer) (fetch : Fetch) (credentials : Value)
    (arrival : Z) (w : World) :
  (forall call r v, fetch call = Return r -> json r = Return v -> TokenResponse_typed v) ->
  is_Some (login JSON_stringify fetch credentials arrival w).
Proof.
  intros Htyped. rewrite login_unfold.
  destruct (get credentials "username") as [u | e0]; [| eauto].
  pose proof (request_returns fetch "/api/v1/auth/login"
                (login_options JSON_stringify credentials) w) as Hreturns.
  destruct (request fetch _ _ w) as [[response | e0] w0]; simpl in *; [| eauto].
  assert (TokenResponse_typed response) as Hresponse.
  { destruct (Hreturns response eq_refl) as [-> | (r & Hfetch & _ & Hjson)].
    - unfold TokenResponse_typed. simpl. discriminate.
    - apply (Htyped _ r response Hfetch Hjson). }
  unfold TokenResponse_typed in Hresponse. unfold login_response.
  destruct (get response "token") as [tok | e0]; [| eauto].
  destruct (get response "expiresInSeconds") as [secs | e0]; [| eauto].
  destruct (truthy tok); [| eauto].
  destruct (Hresponse eq_refl) as (Hstring & [lifetime Hlifetime]).
  destruct tok; try discriminate Hstring. rewrite Hlifetime. eauto.
Qed.

(** X17. Signing in through the hook never rejects.  With responses of the
    declared type, [login] of [useAuth] always resolves with a result.  When
    the client's [login] resolves, the result is [{ success: true }],
    [isAuthenticated] becomes true and the router is sent to [/tasks], once.
    When it throws, whatever was thrown, the result is
    [{ success: false, error }] with an [error] that is not empty,
    [isAuthenticated] stays as it was and the router is not used. *)
Theorem useAuth_login_settles
    (JSON_stringify : Serializer) (fetch : Fetch) (credentials : Value) (arrival : Z)
    (isAuthenticated : bool) (w : World) :
  (forall call r v, fetch call = Return r -> json r = Return v -> TokenResponse_typed v) ->
  exists result isAuthenticated' w',
    useAuth_login JSON_stringify fetch credentials arrival isAuthenticated w
      = Some (Return result, isAuthenticated', w') /\
    (forall response w1,
       login JSON_stringify fetch credentials arrival w = Some (Return response, w1) ->
       result = HookResult.mk true None /\ isAuthenticated' = true /\
       w' = with_replaced (replaced w ++ ["/tasks"]) w1) /\
    (forall e w1,
       login JSON_stringify fetch credentials arrival w = Some (Throw e, w1) ->
       HookResult.success result = false /\
       (exists message, HookResult.error result = Some message /\ truthy message = true) /\
       isAuthenticated' = isAuthenticated /\ w' = w1 /\ replaced w' = replaced w).
Proof.
  intros Htyped.
  destruct (login_defined JSON_stringify fetch credentials arrival w Htyped) as [[c w1] Hlogin].
  unfold useAuth_login. rewrite Hlogin. destruct c as [response | e].
  - pose proof (login_returns _ _ _ _ _ _ _ Hlogin) as Hreplaced.
    do 3 eexists. split; [reflexivity |]. split.
    + intros response' w1' [= <- <-]. simpl. rewrite Hreplaced. repeat split.
    + intros e w1' [=].
  - destruct (login_throws _ _ _ _ _ _ _ Hlogin) as (He & Hreplaced).
    destruct (message_or_default e "Login failed" He ltac:(discriminate))
      as (message & -> & Htruthy).
    do 3 eexists. split; [reflexivity |]. split.
    + intros response w1' [=].
    + intros e' w1' [= <- <-]. simpl. split; [reflexivity |]. split; [eauto |].
      split; [reflexivity |]. split; [reflexivity | exact Hreplaced].
Qed.

Lemma useAuth_login_settles_witness :
  (forall call r v, always (Return token_response) call = Return r -> json r = Return v ->
                    TokenResponse_typed v) /\
  exists result isAuthenticated' w',
    useAuth_login stringify0 (always (Return token_response)) credentials0 2000 false
                  (world0 None None "/login" 1000)
      = Some (Return result, isAuthenticated', w').
Proof.
  assert (forall call r v, always (Return token_response) call = Return r ->
                           json r = Return v -> TokenResponse_typed v) as Htyped.
  { intros call r v [= <-] [= <-]. unfold TokenResponse_typed. simpl.
    intros _. split; [reflexivity | eauto]. }
  split; [exact Htyped |].
  destruct (useAuth_login_settles stringify0 (always (Return token_response)) credentials0 2000
              false (world0 None None "/login" 1000) Htyped)
    as (result & isAuthenticated' & w' & Hrun & _).
  eauto.
Defined.

Lemma logout_returns (fetch : Fetch) (w : World) : fst (logout fetch w) = Return tt.
Proof.
  unfold logout, bind, try_catch, modify, ret.
  destruct (request fetch _ _ w) as [[v | e] w']; reflexivity.
Qed.

(** X18. Signing out through the hook always signs out.  Whatever the
    network does, and also when the call to the server is never made,
    [logout] of [useAuth] completes normally: the client holds no token,
    [isAuthenticated] is false, the router is sent to [/login], once, and in
    a tab [localStorage] holds neither token nor expiry; a hook mounted
    afterwards starts unauthenticated. *)
Theorem useAuth_logout_signs_out (fetch : Fetch) (isAuthenticated : bool) (w : World) :
  exists w',
    useAuth_logout fetch isAuthenticated w = (Return tt, false, w') /\
    getToken w' = None /\
    replaced w' = replaced w ++ ["/login"] /\
    useAuth_initial w' = false /\
    (is_Some (window w) ->
       getTokenExpiresAt w' = None /\ durable_token w' = None /\ durable_expiry w' = None).
Proof.
  unfold useAuth_logout, try_catch.
  pose proof (logout_returns fetch w) as Hfst. pose proof (logout_world fetch w) as Hsnd.
  destruct (logout fetch w) as [c w1]. simpl in Hfst, Hsnd. subst c w1.
  set (w0 := snd (request fetch "/api/v1/auth/logout" (mkRequestInit (Some "POST") None None) w)).
  eexists. split; [reflexivity |].
  assert (getToken (setToken None None w0) = None) as Hnone by apply getToken_setToken.
  split; [exact Hnone |]. split; [| split].
  - simpl. destruct (setToken_frame None None w0) as (_ & _ & _ & -> & _).
    unfold w0. rewrite replaced_request. reflexivity.
  - unfold useAuth_initial. destruct (typeof_window_defined _); [| reflexivity].
    change (truthy_string (getToken (setToken None None w0)) = false). rewrite Hnone. reflexivity.
  - intros Hwin.
    destruct (window_request fetch "/api/v1/auth/logout"
                (mkRequestInit (Some "POST") None None) w Hwin) as [win0 Hwin0].
    fold w0 in Hwin0.
    destruct (session_cleared_setToken_null w0 win0 Hwin0) as (_ & Hexp & Hdt & Hde).
    repeat split; assumption.
Qed.

(** ** The filters of the tasks view *)




(** ** The hook [useTasks] *)

Lemma get_throws_Error (v : Value) (k : string) (e : Value) :
  get v k = Throw e -> instanceof_Error e = true.
Proof. destruct v; simpl; intros [= <-]; reflexivity. Qed.

Lemma truthy_or_else (a b : Value) : truthy b = true -> truthy (or_else a b) = true.
Proof. intros Hb. unfold or_else. destruct (truthy a) eqn:Ha; [exact Ha | exact Hb]. Qed.

(** The message that a hook shows for a thrown value, with its fallback. *)
Lemma message_or_else (e : Value) (fallback : string) :
  instanceof_Error e = true \/ carries_status e = true ->
  fallback <> "" ->
  exists message,
    get e "message" = Return message /\ truthy (or_else message (VStr fallback)) = true.
Proof. apply message_or_default. Qed.

(** A call that resolves leaves the world as it was, but for the record of
    the call. *)
Lemma request_returns_world (fetch : Fetch) (endpoint : string) (options : RequestInit)
    (w : World) (v : Value) :
  fst (request fetch endpoint options w) = Return v ->
  snd (request fetch endpoint options w) = after_fetch (fetch_call endpoint options w) w /\
  token_expired_before_request w = false.
Proof.
  destruct (token_expired_before_request w) eqn:Hpre.
  { rewrite (request_expired fetch endpoint options w Hpre). discriminate. }
  rewrite (request_not_expired fetch endpoint options w Hpre), fst_try_catch_on_catch,
    snd_try_catch_on_catch, perform_world.
  destruct (fetch (fetch_call endpoint options w)) as [r | e] eqn:Hfetch.
  2:{ rewrite (perform_rejected fetch _ e w Hfetch). discriminate. }
  destruct (ok r) eqn:Hok.
  - intros _. simpl. rewrite andb_false_r. split; reflexivity.
  - rewrite (perform_failure fetch _ r w Hfetch Hok), handle_failure_result.
    destruct (errorBody_of r) as [errorBody | e]; [| discriminate].
    destruct (errorMessage_of errorBody r); discriminate.
Qed.

(** [fetchTasks] completes normally and ends the loading state. *)
Lemma fetchTasks_returns (fetch : Fetch) (st : TasksState.t) (w : World) :
  exists st',
    fetchTasks fetch st w
      = (Return tt, st', snd (getTasks fetch (Some (TasksState.filters st)) w)) /\
    TasksState.isLoading st' = false.
Proof.
  unfold fetchTasks.
  pose proof (request_throws_carries_status fetch
                (getTasks_endpoint (Some (TasksState.filters st))) no_options w) as Hstatus.
  unfold getTasks in *.
  assert (forall e st1,
            instanceof_Error e = true \/ carries_status e = true ->
            exists st2, fetchTasks_catch e st1 = Return st2) as Hcatch.
  { intros e st1 He.
    destruct (message_or_else e "Failed to fetch tasks" He ltac:(discriminate))
      as (message & Hmessage & _).
    unfold fetchTasks_catch. rewrite Hmessage. eauto. }
  destruct (request fetch _ no_options w) as [[response | e] w1]; simpl in *.
  - destruct (fetchTasks_try response _) as [st2 | e] eqn:Htry; [eauto |].
    assert (instanceof_Error e = true) as He.
    { revert Htry. unfold fetchTasks_try.
      destruct response; simpl; try discriminate; intros [= <-]; reflexivity. }
    destruct (Hcatch e (set_error None (set_isLoading true st)) (or_introl He)) as [st2 ->].
    eauto.
  - destruct (Hcatch e (set_error None (set_isLoading true st))
                (or_intror (Hstatus e eq_refl))) as [st2 ->].
    eauto.
Qed.

(** X20. Loading the list always settles.  [fetchTasks] of [useTasks]
    never rejects and always ends with [isLoading] false and the filters as
    they were.  When the list call resolves with a value whose fields can be
    read, the tasks are its [items] (or [undefined] when it has none), no
    error is shown, and the page and the size shown are never falsy: they
    fall back to the filters and then to 1 and 20.  When the call throws, or
    resolves with [null], the tasks and the pagination stay as they were and
    the error shown is not empty. *)
Theorem fetchTasks_settles (fetch : Fetch) (st : TasksState.t) (w : World) :
  exists st',
    fetchTasks fetch st w
      = (Return tt, st', snd (getTasks fetch (Some (TasksState.filters st)) w)) /\
    TasksState.isLoading st' = false /\
    TasksState.filters st' = TasksState.filters st /\
    (forall response items,
       fst (getTasks fetch (Some (TasksState.filters st)) w) = Return response ->
       get response "items" = Return items ->
       TasksState.tasks st' = items /\
       TasksState.error st' = None /\
       truthy (Pagination.page (TasksState.pagination st')) = true /\
       truthy (Pagination.size (TasksState.pagination st')) = true) /\
    ((exists e, fst (getTasks fetch (Some (TasksState.filters st)) w) = Throw e) \/
     fst (getTasks fetch (Some (TasksState.filters st)) w) = Return VNull ->
     TasksState.tasks st' = TasksState.tasks st /\
     TasksState.pagination st' = TasksState.pagination st /\
     exists message, TasksState.error st' = Some message /\ truthy message = true).
Proof.
  unfold fetchTasks.
  pose proof (request_throws_carries_status fetch
                (getTasks_endpoint (Some (TasksState.filters st))) no_options w) as Hstatus.
  unfold getTasks in *.
  destruct (request fetch _ no_options w) as [[response | e] w1]; simpl in *.
  - destruct (get response "items") as [items | e] eqn:Hitems.
    + assert (exists total page size,
                get response "total" = Return total /\ get response "page" = Return page /\
                get response "size" = Return size) as (total & page & size & Ht & Hp & Hs).
      { destruct response; try discriminate Hitems; simpl; eauto 10. }
      unfold fetchTasks_try. rewrite Hitems, Ht, Hp, Hs.
      eexists. split; [reflexivity |]. split; [reflexivity |]. split; [reflexivity |]. split.
      * intros response' items' [= <-]. rewrite Hitems. intros [= <-]. simpl.
        repeat split; apply truthy_or_else, truthy_or_else; reflexivity.
      * intros [[e [=]] | [= ->]]. discriminate Hitems.
    + unfold fetchTasks_try. rewrite Hitems.
      destruct (message_or_else e "Failed to fetch tasks"
                  (or_introl (get_throws_Error _ _ _ Hitems)) ltac:(discriminate))
        as (message & Hmessage & Htruthy).
      unfold fetchTasks_catch. rewrite Hmessage.
      eexists. split; [reflexivity |]. split; [reflexivity |]. split; [reflexivity |]. split.
      * intros response' items' [= <-]. rewrite Hitems. discriminate.
      * intros _. simpl. eauto.
  - destruct (message_or_else e "Failed to fetch tasks"
                (or_intror (Hstatus e eq_refl)) ltac:(discriminate))
      as (message & Hmessage & Htruthy).
    unfold fetchTasks_catch. rewrite Hmessage.
    eexists. split; [reflexivity |]. split; [reflexivity |]. split; [reflexivity |]. split.
    + intros response items [=].
    + intros _. simpl. eauto.
Qed.

Lemma mutation_call_request (JSON_stringify : Serializer) (fetch : Fetch) (m : Mutation) :
  exists endpoint options,
    mutation_call JSON_stringify fetch m = request fetch endpoint options /\
    (forall w, mutation_fetch_call JSON_stringify m w = fetch_call endpoint options w) /\
    exists fallback,
      fallback <> "" /\
      useTasks_mutate JSON_stringify fetch m
        = useTasks_mutation (request fetch endpoint options) fallback fetch.
Proof.
  destruct m as [task | id task | id]; do 2 eexists;
    (split; [reflexivity |]); (split; [reflexivity |]);
    eexists; (split; [| reflexivity]); discriminate.
Qed.

(** X21. An operation on a task reports its own outcome.  [createTask],
    [updateTask] and [deleteTask] of [useTasks] never reject.  When the
    call of the operation resolves, the result is [{ success: true }]
    whatever the reload of the list does afterwards: the list is loaded once,
    after the call, and a failure of that load shows in the state of the
    hook only.  When the call throws, the result is
    [{ success: false, error }] with an [error] that is not empty, the list
    is not loaded and the state of the hook is as it was. *)
Theorem mutation_reports_its_own_outcome
    (JSON_stringify : Serializer) (fetch : Fetch) (m : Mutation) (later : Z)
    (st : TasksState.t) (w : World) :
  (forall v w1,
     mutation_call JSON_stringify fetch m w = (Return v, w1) ->
     w1 = after_fetch (mutation_fetch_call JSON_stringify m w) w /\
     exists st',
       useTasks_mutate JSON_stringify fetch m later st w
         = (Return (HookResult.mk true None), st',
            snd (getTasks fetch (Some (TasksState.filters st)) (with_now later w1))) /\
       TasksState.isLoading st' = false) /\
  (forall e w1,
     mutation_call JSON_stringify fetch m w = (Throw e, w1) ->
     (fetched w1 = fetched w \/
      fetched w1 = fetched w ++ [mutation_fetch_call JSON_stringify m w]) /\
     exists message,
       useTasks_mutate JSON_stringify fetch m later st w
         = (Return (HookResult.mk false (Some message)), st, w1) /\
       truthy message = true).
Proof.
  destruct (mutation_call_request JSON_stringify fetch m)
    as (endpoint & options & -> & Hcall & fallback & Hfallback & ->).
  unfold useTasks_mutation. split.
  - intros v w1 Hrun.
    destruct (request_returns_world fetch endpoint options w v) as (Hworld & _);
      [rewrite Hrun; reflexivity |].
    rewrite Hrun in Hworld |- *. simpl in Hworld. split; [rewrite Hcall; exact Hworld |].
    destruct (fetchTasks_returns fetch st (with_now later w1)) as (st' & -> & Hloading).
    exists st'. split; [reflexivity | exact Hloading].
  - intros e w1 Hrun. split.
    + destruct (token_expired_before_request w) eqn:Hpre.
      * left. rewrite (request_expired fetch endpoint options w Hpre) in Hrun.
        injection Hrun as _ <-. unfold after_expiry.
        destruct (typeof_window_defined _); simpl; apply fetched_setToken.
      * right. rewrite Hcall. rewrite <- (fetched_request fetch endpoint options w Hpre).
        rewrite Hrun. reflexivity.
    + pose proof (request_throws_carries_status fetch endpoint options w e) as Hstatus.
      rewrite Hrun in Hstatus |- *.
      destruct (message_or_else e fallback (or_intror (Hstatus eq_refl)) Hfallback)
        as (message & -> & Htruthy).
      exists (or_else message (VStr fallback)). split; [reflexivity | exact Htruthy].
Qed.

(** ** Route protection *)

(** X22. The route gate protects the task views and does not loop.  A
    request for a path that starts with [/tasks] passes only with a
    non-empty [auth_token] cookie, and a request for [/login] passes only
    without one; every other path passes.  A redirect leads to a path that
    passes with the same cookie, so a visitor is redirected at most once. *)
Theorem middleware_guards_without_loop (token : option string) (pathname : string) :
  (String.prefix "/tasks" pathname = true ->
     middleware token pathname
       = if truthy_string token then Next else Redirect "/login") /\
  (pathname = "/login" ->
     middleware token pathname
       = if truthy_string token then Redirect "/tasks" else Next) /\
  (String.prefix "/tasks" pathname = false -> pathname <> "/login" ->
     middleware token pathname = Next) /\
  (forall target, middleware token pathname = Redirect target ->
     middleware token target = Next /\ target <> pathname).
Proof.
  unfold middleware. split; [| split; [| split]].
  - intros Htasks. rewrite Htasks. simpl. destruct (truthy_string token); simpl; [| reflexivity].
    rewrite andb_true_r.
    destruct (String.eqb_spec pathname "/login") as [-> | _]; [discriminate Htasks | reflexivity].
  - intros ->. simpl. destruct (truthy_string token); reflexivity.
  - intros -> Hlogin. simpl. apply String.eqb_neq in Hlogin. rewrite Hlogin. reflexivity.
  - intros target.
    destruct (String.prefix "/tasks" pathname) eqn:Htasks,
             (truthy_string token) eqn:Htoken; simpl.
    + destruct (String.eqb_spec pathname "/login") as [-> | _]; [discriminate Htasks |].
      discriminate.
    + intros [= <-]. simpl. split; [reflexivity |]. intros <-. discriminate Htasks.
    + destruct (String.eqb_spec pathname "/login") as [-> | _]; [| discriminate].
      intros [= <-]. simpl. split; [reflexivity | discriminate].
    + rewrite andb_false_r. discriminate.
Qed.

(** ** [setToken(null)] on every client that can be reached *)

Lemma setToken_calls_snoc (calls : list (option string * option Z))
    (call : option string * option Z) (w : World) :
  setToken_calls (calls ++ [call]) w = setToken call.1 call.2 (setToken_calls calls w).
Proof. unfold setToken_calls. rewrite foldl_snoc. reflexivity. Qed.

Lemma no_window_no_expiry (calls : list (option string * option Z)) (w0 : World) :
  window w0 = None -> reloaded w0 = Some (apiClient w0) ->
  window (setToken_calls calls w0) = None /\
  getTokenExpiresAt (setToken_calls calls w0) = None.
Proof.
  intros Hwin Hstep.
  induction calls as [| call calls IH] using rev_ind.
  - split; [exact Hwin |]. revert Hstep.
    unfold reloaded, new_ApiClient, client_of. rewrite Hwin. simpl.
    intros [= Hclient]. unfold getTokenExpiresAt. simpl. rewrite <- Hclient. reflexivity.
  - destruct IH as (Hwin' & Hexpiry). rewrite setToken_calls_snoc.
    rewrite (setToken_no_window _ _ _ Hwin'). split; [exact Hwin' | exact Hexpiry].
Qed.

(** X23. [setToken(null)] always leaves neither token nor expiry, on every
    client that can be reached: one built by the constructor, in a tab or on
    the server, and changed by [setToken] calls since.  Where there is no
    [window] the call itself does not touch the expiry; there is none to
    clear, because no call records one there. *)
Theorem setToken_null_clears_reachable (w : World) (secs : option Z) :
  (constructed w ->
     getToken (setToken None secs w) = None /\
     getTokenExpiresAt (setToken None secs w) = None) /\
  (window w = None ->
     forall tok secs', getTokenExpiresAt (setToken tok secs' w) = getTokenExpiresAt w).
Proof.
  split.
  - intros (w0 & calls & Hstep & ->). split; [apply getToken_setToken |].
    destruct (window (setToken_calls calls w0)) as [win |] eqn:Hwin.
    + rewrite (setToken_falsy None secs _ win Hwin eq_refl). reflexivity.
    + rewrite (setToken_no_window None secs _ Hwin). simpl.
      destruct (window w0) as [win0 |] eqn:Hwin0.
      * exfalso. clear Hstep. revert Hwin.
        induction calls as [| call calls IH] using rev_ind; [simpl; congruence |].
        rewrite setToken_calls_snoc. intros Hnone.
        apply IH. destruct (window (setToken_calls calls w0)) eqn:Hw; [| reflexivity].
        assert (is_Some (window (setToken call.1 call.2 (setToken_calls calls w0)))) as [? Hs]
          by (apply window_setToken; eauto).
        congruence.
      * apply (no_window_no_expiry calls w0 Hwin0 Hstep).
  - intros Hwin tok secs'. rewrite (setToken_no_window tok secs' w Hwin). reflexivity.
Qed.

(** ** Concrete runs of the hooks *)

(** A wrong password on the login view: the result carries the message of
    the server, nothing is stored, and the view is not told that a session
    ended. *)
Example run_useAuth_login_invalid_credentials :
  match useAuth_login stringify0 (always (Return invalid_credentials_response)) credentials0
          2000 false (world0 None None "/login" 1000) with
  | Some (c, isAuthenticated, w) =>
      c = Return (HookResult.mk false (Some (VStr "Invalid credentials"))) /\
      isAuthenticated = false /\ getToken w = None /\ replaced w = [] /\
      fst (LoginForm_on_mount w) = None
  | None => False
  end.
Proof. vm_compute. repeat split. Qed.

(** A sign-in that succeeds: the token is stored and the router is sent to
    the tasks view. *)
Example run_useAuth_login :
  match useAuth_login stringify0 (always (Return token_response)) credentials0
          2000 false (world0 None None "/login" 1000) with
  | Some (c, isAuthenticated, w) =>
      c = Return (HookResult.mk true None) /\
      isAuthenticated = true /\ getToken w = Some "fresh" /\
      getTokenExpiresAt w = Some 3602000 /\ replaced w = ["/tasks"] /\
      call_body <$> fetched w = [stringify0 credentials0]
  | None => False
  end.
Proof. vm_compute. repeat split. Qed.

(** Deleting a task: the call, then the reload of the list with the filters
    of the hook. *)
Example run_useTasks_deleteTask :
  let '(c, st, w) := useTasks_mutate stringify0 deleting_network (Delete "7") 2000
                       tasks_state0 valid_world in
  c = Return (HookResult.mk true None) /\
  TasksState.tasks st = VArr [] /\ TasksState.isLoading st = false /\
  TasksState.error st = None /\
  TasksState.pagination st = Pagination.mk (VNum 0) (VNum 1) (VNum 20) /\
  (fun call => (call_method call, call_url call)) <$> fetched w
    = [(Some "DELETE", "http://localhost:8080/api/v1/tasks/7");
       (None, "http://localhost:8080/api/v1/tasks?page=1&size=20&sort=UPDATED_DESC")].
Proof. vm_compute. repeat split. Qed.

(** With an expired token neither the operation nor the reload reaches the
    network. *)
Example run_useTasks_createTask_expired :
  let '(c, st, w) := useTasks_mutate stringify0 deleting_network
                       (Create (VObj [("title", VStr "Buy milk"); ("description", VNull)]))
                       2000 tasks_state0 expired_world in
  c = Return (HookResult.mk false
                (Some (VStr "Your session has expired. Please login again."))) /\
  st = tasks_state0 /\ fetched w = [] /\ getToken w = None.
Proof. vm_compute. repeat split. Qed.

Example run_middleware :
  middleware None "/tasks/42" = Redirect "/login" /\
  middleware (Some "") "/tasks" = Redirect "/login" /\
  middleware (Some "cookie") "/tasks/42" = Next /\
  middleware (Some "cookie") "/login" = Redirect "/tasks" /\
  middleware None "/login" = Next.
Proof. vm_compute. repeat split. Qed.

(** ** Paging *)

(** X24. The pages of the list partition the items.  With a positive page
    size the pager is shown exactly when the items do not fit on one page.
    On a page between 1 and the last, the range shown lies within the items
    and holds at most one page of them; the last page is the first one that
    reaches the last item; [Previous] is disabled exactly on page 1 and
    [Next] exactly on the last page; an enabled button asks for the
    neighbouring page, which is again between 1 and the last, and the range
    of the next page starts right after the range of this one. *)
Theorem TaskPagination_pages (currentPage pageSize totalItems : Z) :
  0 < pageSize -> 0 <= totalItems ->
  (TaskPagination currentPage pageSize totalItems = Some None <-> totalItems <= pageSize) /\
  (forall view,
     TaskPagination currentPage pageSize totalItems = Some (Some view) ->
     1 <= currentPage <= PaginationView.totalPages view ->
     (PaginationView.totalPages view - 1) * pageSize < totalItems
       <= PaginationView.totalPages view * pageSize /\
     1 <= PaginationView.startItem view <= PaginationView.endItem view /\
     PaginationView.endItem view <= totalItems /\
     PaginationView.endItem view - PaginationView.startItem view < pageSize /\
     (PaginationView.endItem view = totalItems <->
      currentPage = PaginationView.totalPages view) /\
     (PaginationView.previous view = None <-> currentPage = 1) /\
     (PaginationView.next view = None <-> currentPage = PaginationView.totalPages view) /\
     (forall p, PaginationView.previous view = Some p -> p = currentPage - 1 /\ 1 <= p) /\
     (forall p, PaginationView.next view = Some p ->
        p = currentPage + 1 /\ p <= PaginationView.totalPages view /\
        exists view',
          TaskPagination p pageSize totalItems = Some (Some view') /\
          PaginationView.startItem view' = PaginationView.endItem view + 1)).
Proof.
  intros Hsize Htotal.
  pose proof (ceil_div_rounds_up totalItems pageSize Hsize) as Hceil.
  unfold TaskPagination.
  assert ((pageSize =? 0) = false) as -> by lia.
  set (totalPages := ceil_div totalItems pageSize) in *.
  clearbody totalPages.
  assert ((totalPages - 1) * pageSize = totalPages * pageSize - pageSize) as Hlast by ring.
  split.
  - destruct (Z.leb_spec totalPages 1) as [Hone | Hone].
    + split; [intros _ | reflexivity].
      assert (totalPages * pageSize <= 1 * pageSize)
        by (apply Z.mul_le_mono_nonneg_r; lia).
      lia.
    + split; [discriminate | intros Hfit].
      assert (2 * pageSize <= totalPages * pageSize)
        by (apply Z.mul_le_mono_nonneg_r; lia).
      lia.
  - intros view. destruct (Z.leb_spec totalPages 1) as [Hone | Hone]; [discriminate |].
    intros [= <-]. simpl. intros Hpage.
    assert ((currentPage - 1) * pageSize = currentPage * pageSize - pageSize) as Hprev by ring.
    assert (1 * pageSize <= currentPage * pageSize) as Hlow
      by (apply Z.mul_le_mono_nonneg_r; lia).
    assert (currentPage < totalPages -> currentPage * pageSize <= (totalPages - 1) * pageSize)
      as Hbefore by (intros; apply Z.mul_le_mono_nonneg_r; lia).
    assert (currentPage = totalPages -> currentPage * pageSize = totalPages * pageSize)
      as Hat by (intros ->; reflexivity).
    assert ((currentPage + 1 - 1) * pageSize = currentPage * pageSize) as Hnext
      by (f_equal; lia).
    split; [lia |]. split; [lia |]. split; [lia |]. split; [lia |].
    split; [split; lia |].
    split; [destruct (Z.eqb_spec currentPage 1); split; intros;
              (reflexivity || discriminate || lia) |].
    split; [destruct (Z.eqb_spec currentPage totalPages); split; intros;
              (reflexivity || discriminate || lia) |].
    split.
    + intros p. destruct (Z.eqb_spec currentPage 1); [discriminate |].
      intros [= <-]. lia.
    + intros p. destruct (Z.eqb_spec currentPage totalPages); [discriminate |].
      intros [= <-]. split; [reflexivity |]. split; [lia |].
      eexists. split; [reflexivity |]. simpl. lia.
Qed.

Lemma TaskPagination_pages_witness :
  0 < 20 /\ 0 <= 45 /\
  forall view,
    TaskPagination 2 20 45 = Some (Some view) ->
    1 <= 2 <= PaginationView.totalPages view ->
    1 <= PaginationView.startItem view <= PaginationView.endItem view.
Proof.
  split; [reflexivity |]. split; [discriminate |].
  intros view Hview Hpage.
  exact (proj1 (proj2 (proj2 (TaskPagination_pages 2 20 45 eq_refl ltac:(discriminate))
                         view Hview Hpage))).
Defined.

Example run_TaskPagination :
  TaskPagination 2 20 45 = Some (Some (PaginationView.mk 21 40 3 (Some 1) (Some 3))) /\
  TaskPagination 3 20 45 = Some (Some (PaginationView.mk 41 45 3 (Some 2) None)) /\
  TaskPagination 1 20 20 = Some None /\
  TaskPagination 1 0 20 = None.
Proof. vm_compute. repeat split. Qed.
